(** * CER: a subordinate Certificate Authority manager

    Shallow embedding of the route handlers of the repository
    (CRL generation, CA details, CA deletion) over an explicit model of the
    Prisma store, together with the revocation, issuance and serial
    allocation operations, which the repository's integration tests call. *)

From stdpp Require Import base option list gmap strings pretty relations.
From Stdlib Require Import ZArith Lia.

Open Scope Z_scope.
Open Scope string_scope.
Open Scope list_scope.

Set Warnings "-register-all".

(** ** JavaScript values and exceptions *)

(** The result of [JSON.parse]: what [request.json()] resolves to.  An
    object is its list of own properties. *)
Inductive JSON : Type :=
| JNull
| JBool (b : bool)
| JNum (n : Z)
| JStr (s : string)
| JArr (items : list JSON)
| JObj (props : list (string * JSON)).

(** A JavaScript value read out of a parsed body: [None] is [undefined]. *)
Definition JSValue : Type := option JSON.

(** An awaited call either resolves to a value or throws; [message] is what
    [error instanceof Error ? error.message : String(error)] evaluates to. *)
Inductive Outcome (A : Type) : Type :=
| Returned (a : A)
| Thrown (message : string).
Arguments Returned {A} a.
Arguments Thrown {A} message.

(** Property lookup on a list of own properties; [JSON.parse] keeps the last
    of several members with one name. *)
Fixpoint lookup_prop (k : string) (props : list (string * JSON)) : JSValue :=
  match props with
  | [] => None
  | (k', v) :: rest =>
      match lookup_prop k rest with
      | Some v' => Some v'
      | None => if String.eqb k k' then Some v else None
      end
  end.

(** [body[k]] for a parsed body: [null] has no properties and reading one
    throws a TypeError; the primitives and arrays have none named [type] or
    [caId], so the read gives [undefined]. *)
Definition get_prop (k : string) (body : JSON) : Outcome JSValue :=
  match body with
  | JNull => Thrown ("Cannot read properties of null (reading '" +:+ k +:+ "')")
  | JObj props => Returned (lookup_prop k props)
  | _ => Returned None
  end.

(** [v === 'delta'] *)
Definition strict_eq_str (v : JSON) (s : string) : bool :=
  match v with
  | JStr s' => String.eqb s' s
  | _ => false
  end.

(** [Array.prototype.includes] on an array of strings. *)
Definition includes (l : list string) (s : string) : bool :=
  existsb (String.eqb s) l.

(** ** Data model (the Prisma tables the handlers touch) *)

Definition Date : Type := Z.

Inductive CAStatus : Type := CA_PENDING | CA_ACTIVE | CA_EXPIRED | CA_REVOKED.

Inductive CertificateStatus : Type := ACTIVE | REVOKED | EXPIRED.

Inductive RevocationReason : Type :=
| UNSPECIFIED | KEY_COMPROMISE | CA_COMPROMISE | AFFILIATION_CHANGED
| SUPERSEDED | CESSATION_OF_OPERATION | CERTIFICATE_HOLD.

Inductive AuditAction : Type :=
| CRL_GENERATED | CA_DELETED | CERTIFICATE_ISSUED | CERTIFICATE_REVOKED.

#[global] Instance CertificateStatus_eq_dec : EqDecision CertificateStatus.
Proof. solve_decision. Defined.
#[global] Instance AuditAction_eq_dec : EqDecision AuditAction.
Proof. solve_decision. Defined.
#[global] Instance RevocationReason_eq_dec : EqDecision RevocationReason.
Proof. solve_decision. Defined.

(** The columns of CAConfig that the CA route reads, and the encrypted
    private key that the data model stores beside them. *)
Record CAConfig : Type := {
  ca_id : string;
  ca_name : string;
  ca_subjectDN : string;
  ca_privateKey : string;
  ca_certificate : option string;
  ca_certificateChain : option string;
  ca_status : CAStatus;
  ca_keyAlgorithm : string;
  ca_keySize : option Z;
  ca_curve : option string;
  ca_validFrom : option Date;
  ca_validTo : option Date;
  ca_crlNumber : Z;
  ca_crlDistributionPoint : option string;
  ca_ocspUrl : option string;
}.

Record Certificate : Type := {
  cert_id : string;
  cert_serialNumber : string;
  cert_commonName : string;
  cert_subjectAltNames : list string;
  cert_validFrom : Date;
  cert_validTo : Date;
  cert_status : CertificateStatus;
  cert_issuedById : string;
  cert_caId : string;
}.

Record CertificateRevocation : Type := {
  rev_certificateId : string;
  rev_reason : RevocationReason;
  rev_revokedAt : Date;
  rev_revokedById : string;
}.

Record CRL : Type := {
  crl_caId : string;
  crl_number : Z;
  crl_pem : string;
}.

Record AuditLog : Type := {
  action : AuditAction;
  description : string;
  userId : string;
  username : string;
  metadata : list (string * JSON);
}.

(** The store: tables with a primary key are maps from the key; the
    append-only and multi-row tables are lists in insertion order. *)
Record Store : Type := {
  caConfigs : gmap string CAConfig;
  certificates : gmap string Certificate;
  certificateRevocations : list CertificateRevocation;
  crls : list CRL;
  auditLogs : list AuditLog;
}.

Definition set_auditLogs (st : Store) (logs : list AuditLog) : Store :=
  {| caConfigs := caConfigs st;
     certificates := certificates st;
     certificateRevocations := certificateRevocations st;
     crls := crls st;
     auditLogs := logs |}.

(** A call into [CAService] ([@/lib/ca]), with the [caId] it was given. *)
Inductive ServiceCall : Type :=
| generateCRL (caId : JSValue)
| generateDeltaCRL (caId : JSValue).

(** What lies outside a handler's locals: the database, the calls made into
    CAService so far, and the counters of the serial allocator. *)
Record World : Type := {
  store : Store;
  serviceCalls : list ServiceCall;
  serials : gmap string N;
}.

Definition set_store (w : World) (st : Store) : World :=
  {| store := st; serviceCalls := serviceCalls w; serials := serials w |}.

Definition set_serials (w : World) (cs : gmap string N) : World :=
  {| store := store w; serviceCalls := serviceCalls w; serials := cs |}.

Definition record_call (w : World) (c : ServiceCall) : World :=
  {| store := store w; serviceCalls := serviceCalls w ++ [c]; serials := serials w |}.

(** Modelled from the spec: what one call into CAService writes.  The
    service lives in [@/lib/ca], which is not part of the sources verified
    here.  Section 4.3 has a generation increment the CA's [crlNumber],
    persist the CRL and write an AuditLog row, and has it only read the
    Certificate and CertificateRevocation rows.  So a call leaves the
    CAConfig and CRL tables as the service decides, and appends the rows the
    service decides to the AuditLog table, whose rows are created and never
    changed or deleted. *)
Record ServiceWrites : Type := {
  written_caConfigs : gmap string CAConfig;
  written_crls : list CRL;
  written_auditLogs : list AuditLog;
}.

(** Modelled from the spec: the store after the writes of a call. *)
Definition CAService_commit (writes : ServiceWrites) (st : Store) : Store :=
  {| caConfigs := written_caConfigs writes;
     certificates := certificates st;
     certificateRevocations := certificateRevocations st;
     crls := written_crls writes;
     auditLogs := auditLogs st ++ written_auditLogs writes |}.

(** A call that writes nothing, for a store [st]. *)
Definition no_writes (st : Store) : ServiceWrites :=
  {| written_caConfigs := caConfigs st;
     written_crls := crls st;
     written_auditLogs := [] |}.

(** ** Sessions and responses *)

(** [session.user]: [role] is read by the CA route, [permissions] by the CRL
    route (a value that is not an array has no [includes] to call). *)
Record SessionUser : Type := {
  user_id : string;
  user_username : string;
  role : string;
  permissions : option (list string);
}.

Record Session : Type := { user : SessionUser }.

(** [NextResponse.json(payload, { status })]; the status is 200 when the
    handler gives none. *)
Record Response (Payload : Type) : Type := {
  status : Z;
  payload : Payload;
}.
Arguments status {Payload} _.
Arguments payload {Payload} _.

Definition json {Payload : Type} (p : Payload) (code : Z) : Response Payload :=
  {| status := code; payload := p |}.

(** ** A state-and-exception monad for the bodies of the handlers *)

Definition Handler (A : Type) : Type := World -> Outcome A * World.

Definition ret {A : Type} (a : A) : Handler A := fun w => (Returned a, w).

Definition throw {A : Type} (message : string) : Handler A :=
  fun w => (Thrown message, w).

Definition bind {A B : Type} (m : Handler A) (k : A -> Handler B) : Handler B :=
  fun w =>
    match m w with
    | (Returned a, w') => k a w'
    | (Thrown message, w') => (Thrown message, w')
    end.

(** [await] of a call into a collaborator whose outcome is given. *)
Definition await {A : Type} (o : Outcome A) : Handler A := fun w => (o, w).

(** A query of the database. *)
Definition query {A : Type} (f : Store -> A) : Handler A :=
  fun w => (Returned (f (store w)), w).

(** A write to the database that cannot fail. *)
Definition write (f : Store -> Store) : Handler unit :=
  fun w => (Returned tt, set_store w (f (store w))).

(** [try { body } catch (error) { handler }], for a handler that cannot
    throw itself: the block as a whole always completes. *)
Definition try_catch {A : Type} (body : Handler A)
    (handler : string -> World -> A * World) (w : World) : A * World :=
  match body w with
  | (Returned a, w') => (a, w')
  | (Thrown message, w') => handler message w'
  end.

Notation "'let*' x ':=' m 'in' k" := (bind m (fun x => k))
  (at level 10, x name, m at level 100, k at level 200).

(** ** The audit sink *)

(** Modelled from the spec: [AuditService.log(entry)] lives in [@/lib/audit],
    which is not part of the sources verified here.  It is the audit sink:
    the writer of the AuditLog table, whose rows are created and never
    changed or deleted.  A call that resolves has appended its row, a call
    that throws has appended none; [fails] says which calls throw, and with
    what message. *)
Definition AuditService_log (fails : AuditLog -> option string) (entry : AuditLog)
  : Handler unit :=
  match fails entry with
  | Some message => throw message
  | None => write (fun st => set_auditLogs st (auditLogs st ++ [entry]))
  end.

(** ** POST /api/crl/generate *)

Module CrlGenerate.

(** What the handler awaits from its collaborators.  Of CAService, what
    each entry point answers, and what a call has written to the store it
    found by the time it answers, be the answer a CRL or an error. *)
Record Env : Type := {
  getApiSession : Outcome (option Session);
  getApiSession_in_catch : Outcome (option Session);
  request_json : Outcome JSON;
  CAService_generateCRL : JSValue -> Outcome string;
  CAService_generateDeltaCRL : JSValue -> Outcome string;
  CAService_writes : ServiceCall -> Store -> ServiceWrites;
  audit_fails : AuditLog -> option string;
  now : string;
  now_in_catch : string;
}.

Inductive Payload : Type :=
| Error (error : string)
| Success (message : string) (crl : string) (type : JSON)
| Failure (error : string) (details : string).

(** [const { type = 'full', caId } = await request.json()] *)
Definition destructure (body : JSON) : Outcome (JSON * JSValue) :=
  match get_prop "type" body with
  | Thrown m => Thrown m
  | Returned type =>
      match get_prop "caId" body with
      | Thrown m => Thrown m
      | Returned caId => Returned (default (JStr "full") type, caId)
      end
  end.

(** Modelled from the spec: the world after a call into CAService.  The
    service has made its writes to the store and the call is recorded. *)
Definition CAService_call (env : Env) (call : ServiceCall) (w : World) : World :=
  record_call
    (set_store w (CAService_commit (CAService_writes env call (store w)) (store w)))
    call.

(** Modelled from the spec: [await CAService.generateCRL(caId)].  The call
    is made, the service writes what it writes, then the call resolves or
    throws as the service decides. *)
Definition call_generateCRL (env : Env) (caId : JSValue) : Handler string :=
  fun w => (CAService_generateCRL env caId, CAService_call env (generateCRL caId) w).

(** Modelled from the spec: [await CAService.generateDeltaCRL(caId)],
    likewise. *)
Definition call_generateDeltaCRL (env : Env) (caId : JSValue) : Handler string :=
  fun w =>
    (CAService_generateDeltaCRL env caId, CAService_call env (generateDeltaCRL caId) w).

(** The [if (type === 'delta') ... else ...]: the CRL and the description. *)
Definition generate (env : Env) (type : JSON) (caId : JSValue)
  : Handler (string * string) :=
  if strict_eq_str type "delta"
  then
    let* crl := call_generateDeltaCRL env caId in
    ret (crl, "Delta CRL generated successfully")
  else
    let* crl := call_generateCRL env caId in
    ret (crl, "Full CRL generated successfully").

Definition success_entry (env : Env) (session : Session) (type : JSON)
    (description : string) : AuditLog :=
  {| action := CRL_GENERATED;
     description := description;
     userId := user_id (user session);
     username := user_username (user session);
     metadata := [("crlType", type); ("timestamp", JStr (now env))] |}.

Definition failure_entry (env : Env) (session : Session) (message : string)
  : AuditLog :=
  {| action := CRL_GENERATED;
     description := "CRL generation failed: " +:+ message;
     userId := user_id (user session);
     username := user_username (user session);
     metadata := [("error", JStr message); ("timestamp", JStr (now_in_catch env))] |}.

(** The body of the [try] block. *)
Definition POST_try (env : Env) : Handler (Response Payload) :=
  let* session := await (getApiSession env) in
  match session with
  | None => ret (json (Error "Unauthorized") 401)
  | Some session =>
      match permissions (user session) with
      | None => throw "Cannot read properties of undefined (reading 'includes')"
      | Some perms =>
          if negb (includes perms "crl:manage")
          then ret (json (Error "Insufficient permissions") 403)
          else
            let* body := await (request_json env) in
            let* fields := await (destructure body) in
            let type := fst fields in
            let caId := snd fields in
            let* generated := generate env type caId in
            let crl := fst generated in
            let description := snd generated in
            let* logged := AuditService_log (audit_fails env)
                             (success_entry env session type description) in
            ret (json (Success description crl type) 200)
      end
  end.

(** The inner [try] of the [catch] block: log the failure, best effort. *)
Definition log_failure (env : Env) (message : string) (w : World) : World :=
  snd (try_catch
         (let* session := await (getApiSession_in_catch env) in
          match session with
          | Some session =>
              AuditService_log (audit_fails env) (failure_entry env session message)
          | None => ret tt
          end)
         (fun _ w' => (tt, w'))
         w).

Definition POST_catch (env : Env) (message : string) (w : World)
  : Response Payload * World :=
  (json (Failure "Failed to generate CRL" message) 500, log_failure env message w).

Definition POST (env : Env) (w : World) : Response Payload * World :=
  try_catch (POST_try env) (POST_catch env) w.

(** The call into CAService that a run made, if it made one: what the run
    added to the record of the calls. *)
Definition call_made (env : Env) (w : World) : option ServiceCall :=
  head (drop (length (serviceCalls w)) (serviceCalls (snd (POST env w)))).

(** The store as CAService left it in a run: the store the run found, with
    the writes of the call the run made. *)
Definition service_store (env : Env) (w : World) : Store :=
  match call_made env w with
  | Some call => CAService_commit (CAService_writes env call (store w)) (store w)
  | None => store w
  end.

(** The rows the handler itself appends to the AuditLog table in a run,
    through AuditService.log: those that follow the rows CAService left. *)
Definition appended (env : Env) (w : World) (rows : list AuditLog) : Prop :=
  auditLogs (store (snd (POST env w))) = auditLogs (service_store env w) ++ rows.

(** The row the catch block writes for a failure with [message]: one row
    when it resolves a session and the audit sink takes the row, none when
    no session is resolved, resolving it throws, or the sink throws. *)
Definition failure_rows (env : Env) (message : string) : list AuditLog :=
  match getApiSession_in_catch env with
  | Returned (Some session) =>
      match audit_fails env (failure_entry env session message) with
      | None => [failure_entry env session message]
      | Some _ => []
      end
  | Returned None => []
  | Thrown _ => []
  end.

End CrlGenerate.

(** ** PEM blocks of a certificate chain *)

Module Pem.

Definition BEGIN : string := "-----BEGIN CERTIFICATE-----".
Definition END : string := "-----END CERTIFICATE-----".

(** The first occurrence of [marker] in [s]: the text before it and the
    text after it. *)
Fixpoint find_marker (marker s : string) : option (string * string) :=
  if String.prefix marker s
  then Some (EmptyString,
             String.substring (String.length marker)
               (String.length s - String.length marker) s)
  else
    match s with
    | EmptyString => None
    | String c rest =>
        match find_marker marker rest with
        | Some (before, after) => Some (String c before, after)
        | None => None
        end
    end.

(** The successive matches of
    [/-----BEGIN CERTIFICATE-----[\s\S]*?-----END CERTIFICATE-----/g]:
    from the first BEGIN marker to the first END marker after it, then on
    from the end of that match. *)
Fixpoint match_blocks_fuel (fuel : nat) (s : string) : list string :=
  match fuel with
  | O => []
  | S fuel' =>
      match find_marker BEGIN s with
      | None => []
      | Some (_, after_begin) =>
          match find_marker END after_begin with
          | None => []
          | Some (inner, rest) =>
              (BEGIN +:+ inner +:+ END) :: match_blocks_fuel fuel' rest
          end
      end
  end.

(** [chain.match(regex) || []] *)
Definition match_blocks (s : string) : list string :=
  match_blocks_fuel (String.length s) s.

End Pem.

(** ** /api/ca/[id]: GET and DELETE *)

Module CaRoute.

(** What [forge.pki.certificateFromPem] gives for a PEM text that parses,
    as far as the handler reads it. *)
Record ForgeCertificate : Type := {
  subject_CN : option string;
  issuer_CN : option string;
  validity_notBefore : Date;
  validity_notAfter : Date;
  publicKey_type : option string;
}.

Record CertificateInfo : Type := {
  subjectCN : option string;
  issuerCN : option string;
  selfSigned : option bool;
  notBefore : Date;
  notAfter : Date;
  publicKeyType : option string;
}.

Record ChainEntry : Type := {
  entry_subjectCN : option string;
  entry_issuerCN : option string;
  entry_notBefore : Date;
  entry_notAfter : Date;
}.

Record ChainInfo : Type := {
  count : nat;
  entries : list ChainEntry;
  rootCN : option string;
}.

(** The object the GET handler answers with. *)
Record Details : Type := {
  d_id : string;
  d_name : string;
  d_subjectDN : string;
  d_status : CAStatus;
  d_keyAlgorithm : string;
  d_keySize : option Z;
  d_curve : option string;
  d_validFrom : option Date;
  d_validTo : option Date;
  d_crlNumber : Z;
  d_crlDistributionPoint : option string;
  d_ocspUrl : option string;
  hasCertificate : bool;
  hasCertificateChain : bool;
  certificateInfo : option CertificateInfo;
  certificateChainInfo : option ChainInfo;
}.

Inductive GetPayload : Type :=
| GetError (error : string)
| GetDetails (details : Details).

Inductive DeletePayload : Type :=
| DeleteError (error : string)
| DeleteSuccess.

(** Truthiness of a nullable string: [!!ca.certificate]. *)
Definition truthy (o : option string) : bool :=
  match o with
  | Some s => negb (String.eqb s "")
  | None => false
  end.

(** [x || null] for a string or undefined [x]. *)
Definition or_null (o : option string) : option string :=
  if truthy o then o else None.

(** [a || b] for two such values. *)
Definition or_else (a b : option string) : option string :=
  if truthy a then a else b.

Section WithForge.

(** [forge.pki.certificateFromPem]: [None] when it throws. *)
Variable certificateFromPem : string -> option ForgeCertificate.

(** The first [try]: the CA certificate, best effort. *)
Definition derive_certInfo (ca : CAConfig) : option CertificateInfo :=
  if truthy (ca_certificate ca) then
    match certificateFromPem (default "" (ca_certificate ca)) with
    | Some cert =>
        let subjectCN := or_null (subject_CN cert) in
        let issuerCN := or_null (issuer_CN cert) in
        let selfSigned :=
          match subjectCN, issuerCN with
          | Some s, Some i => Some (String.eqb s i)
          | _, _ => None
          end in
        Some {| subjectCN := subjectCN;
                issuerCN := issuerCN;
                selfSigned := selfSigned;
                notBefore := validity_notBefore cert;
                notAfter := validity_notAfter cert;
                publicKeyType := or_null (publicKey_type cert) |}
    | None => None
    end
  else None.

(** The callback of [blocks.map]: an entry, or [null] when the block
    does not parse. *)
Definition parse_block (b : string) : option ChainEntry :=
  match certificateFromPem b with
  | Some c =>
      Some {| entry_subjectCN := or_null (subject_CN c);
              entry_issuerCN := or_null (issuer_CN c);
              entry_notBefore := validity_notBefore c;
              entry_notAfter := validity_notAfter c |}
  | None => None
  end.

(** The second [try]: the chain; [omap] is [map] then [filter(Boolean)]. *)
Definition derive_chainInfo (ca : CAConfig) : option ChainInfo :=
  if truthy (ca_certificateChain ca) then
    let blocks := Pem.match_blocks (default "" (ca_certificateChain ca)) in
    let parsed := omap parse_block blocks in
    let root := last parsed in
    Some {| count := length parsed;
            entries := parsed;
            rootCN := or_null (or_else (root ≫= entry_issuerCN)
                                       (root ≫= entry_subjectCN)) |}
  else None.

Definition details (ca : CAConfig) : Details :=
  {| d_id := ca_id ca;
     d_name := ca_name ca;
     d_subjectDN := ca_subjectDN ca;
     d_status := ca_status ca;
     d_keyAlgorithm := ca_keyAlgorithm ca;
     d_keySize := ca_keySize ca;
     d_curve := ca_curve ca;
     d_validFrom := ca_validFrom ca;
     d_validTo := ca_validTo ca;
     d_crlNumber := ca_crlNumber ca;
     d_crlDistributionPoint := ca_crlDistributionPoint ca;
     d_ocspUrl := ca_ocspUrl ca;
     hasCertificate := truthy (ca_certificate ca);
     hasCertificateChain := truthy (ca_certificateChain ca);
     certificateInfo := derive_certInfo ca;
     certificateChainInfo := derive_chainInfo ca |}.

Definition GET_try (getServerSession : Outcome (option Session)) (id : string)
  : Handler (Response GetPayload) :=
  let* session := await getServerSession in
  match session with
  | None => ret (json (GetError "Unauthorized") 401)
  | Some _ =>
      if String.eqb id ""
      then ret (json (GetError "CA id is required") 400)
      else
        let* ca := query (fun st => caConfigs st !! id) in
        match ca with
        | None => ret (json (GetError "CA not found") 404)
        | Some ca => ret (json (GetDetails (details ca)) 200)
        end
  end.

Definition GET (getServerSession : Outcome (option Session)) (id : string)
    (w : World) : Response GetPayload * World :=
  try_catch (GET_try getServerSession id)
    (fun _ w' => (json (GetError "Failed to fetch CA details") 500, w'))
    w.

End WithForge.

(** *** DELETE *)

Record Env : Type := {
  getServerSession : Outcome (option Session);
  audit_fails : AuditLog -> option string;
}.

(** [db.$transaction(fn)]: the writes of [fn] are kept when it resolves
    and undone when it throws. *)
Definition transaction {A : Type} (body : Handler A) : Handler A :=
  fun w =>
    match body w with
    | (Returned a, w') => (Returned a, w')
    | (Thrown message, w') => (Thrown message, set_store w' (store w))
    end.

(** [where: { certificate: { caId: id } }] *)
Definition revocation_of_ca (certs : gmap string Certificate) (caId : string)
    (r : CertificateRevocation) : bool :=
  match certs !! rev_certificateId r with
  | Some c => String.eqb (cert_caId c) caId
  | None => false
  end.

Definition certificateRevocation_deleteMany (caId : string) (st : Store) : Store :=
  {| caConfigs := caConfigs st;
     certificates := certificates st;
     certificateRevocations :=
       List.filter (fun r => negb (revocation_of_ca (certificates st) caId r))
         (certificateRevocations st);
     crls := crls st;
     auditLogs := auditLogs st |}.

Definition certificate_deleteMany (caId : string) (st : Store) : Store :=
  {| caConfigs := caConfigs st;
     certificates := filter (fun kc => cert_caId (snd kc) ≠ caId) (certificates st);
     certificateRevocations := certificateRevocations st;
     crls := crls st;
     auditLogs := auditLogs st |}.

Definition cRL_deleteMany (caId : string) (st : Store) : Store :=
  {| caConfigs := caConfigs st;
     certificates := certificates st;
     certificateRevocations := certificateRevocations st;
     crls := List.filter (fun c => negb (String.eqb (crl_caId c) caId)) (crls st);
     auditLogs := auditLogs st |}.

(** [delete({ where: { id } })] throws when there is no such row. *)
Definition cAConfig_delete (id : string) : Handler unit :=
  let* ca := query (fun st => caConfigs st !! id) in
  match ca with
  | None => throw "Record to delete does not exist."
  | Some _ =>
      write (fun st =>
               {| caConfigs := delete id (caConfigs st);
                  certificates := certificates st;
                  certificateRevocations := certificateRevocations st;
                  crls := crls st;
                  auditLogs := auditLogs st |})
  end.

(** The callback of the transaction. *)
Definition delete_cascade (id : string) : Handler unit :=
  let* r1 := write (certificateRevocation_deleteMany id) in
  let* r2 := write (certificate_deleteMany id) in
  let* r3 := write (cRL_deleteMany id) in
  cAConfig_delete id.

(** [session.user.role !== 'ADMIN'] *)
Definition not_admin (session : Session) : bool :=
  negb (String.eqb (role (user session)) "ADMIN").

Definition deleted_entry (session : Session) (id : string) : AuditLog :=
  {| action := CA_DELETED;
     userId := user_id (user session);
     username := user_username (user session);
     description := "CA deleted: " +:+ id;
     metadata := [("caId", JStr id)] |}.

Definition DELETE_try (env : Env) (id : string) : Handler (Response DeletePayload) :=
  let* session := await (getServerSession env) in
  match session with
  | None => ret (json (DeleteError "Unauthorized") 401)
  | Some session =>
      if not_admin session
      then ret (json (DeleteError "Unauthorized") 401)
      else
        if String.eqb id ""
        then ret (json (DeleteError "CA id is required") 400)
        else
          let* deleted := transaction (delete_cascade id) in
          let* logged := AuditService_log (audit_fails env) (deleted_entry session id) in
          ret (json DeleteSuccess 200)
  end.

Definition DELETE (env : Env) (id : string) (w : World)
  : Response DeletePayload * World :=
  try_catch (DELETE_try env id)
    (fun _ w' => (json (DeleteError "Failed to delete CA") 500, w'))
    w.

(** A CA row with its private key blanked: what may be shown. *)
Definition public_part (ca : CAConfig) : CAConfig :=
  {| ca_id := ca_id ca;
     ca_name := ca_name ca;
     ca_subjectDN := ca_subjectDN ca;
     ca_privateKey := "";
     ca_certificate := ca_certificate ca;
     ca_certificateChain := ca_certificateChain ca;
     ca_status := ca_status ca;
     ca_keyAlgorithm := ca_keyAlgorithm ca;
     ca_keySize := ca_keySize ca;
     ca_curve := ca_curve ca;
     ca_validFrom := ca_validFrom ca;
     ca_validTo := ca_validTo ca;
     ca_crlNumber := ca_crlNumber ca;
     ca_crlDistributionPoint := ca_crlDistributionPoint ca;
     ca_ocspUrl := ca_ocspUrl ca |}.

End CaRoute.

(** ** Serial number allocation *)

Module SerialAllocator.

(** The next serial of a CA; a CA that never allocated starts at 1. *)
Definition next_of (counters : gmap string N) (caId : string) : N :=
  default 1%N (counters !! caId).

(** Modelled from the spec: the allocator's code is not part of the
    sources verified here.  [nextSerial(caId)]: allocation is serialized
    per CA with an atomic counter; one call reads the CA's next serial and
    advances the counter, in a single step. *)
Definition nextSerial (caId : string) (counters : gmap string N)
  : N * gmap string N :=
  (next_of counters caId, <[caId := (next_of counters caId + 1)%N]> counters).

(** Modelled from the spec: concurrent callers of the allocator.  Each
    pending call names its caller and its CA; calls being serialized, a
    step serves any one pending call, whichever the scheduler picks, and
    records the serial that caller observed. *)
Record Config : Type := {
  counters : gmap string N;
  pending : list (nat * string);
  served : list (nat * string * N);
}.

Inductive step : Config -> Config -> Prop :=
| step_serve (cs : gmap string N) (before after : list (nat * string))
    (caller : nat) (caId : string) (observed : list (nat * string * N)) :
    step {| counters := cs;
            pending := before ++ (caller, caId) :: after;
            served := observed |}
         {| counters := snd (nextSerial caId cs);
            pending := before ++ after;
            served := observed ++ [(caller, caId, fst (nextSerial caId cs))] |}.

Definition start (cs : gmap string N) (calls : list (nat * string)) : Config :=
  {| counters := cs; pending := calls; served := [] |}.

(** One schedule among all: serve the calls in the order of the list. *)
Fixpoint serve_in_order (c : Config) (calls : list (nat * string)) : Config :=
  match calls with
  | [] => c
  | (caller, caId) :: rest =>
      serve_in_order
        {| counters := snd (nextSerial caId (counters c));
           pending := rest;
           served := served c ++ [(caller, caId, fst (nextSerial caId (counters c)))] |}
        rest
  end.

(** The CA and the serial of a served call. *)
Definition key (x : nat * string * N) : string * N := (snd (fst x), snd x).

(** The invariant of every schedule: each observed serial lies below its
    CA's counter, and no (CA, serial) pair was observed twice. *)
Definition allocated_below (c : Config) : Prop :=
  Forall (fun x => (snd x < next_of (counters c) (snd (fst x)))%N) (served c).

Definition consistent (calls : list (nat * string)) (c : Config) : Prop :=
  allocated_below c /\
  NoDup (key <$> served c) /\
  (fst <$> served c) ++ pending c ≡ₚ calls.

End SerialAllocator.

(** ** Revocation *)

Module RevocationManager.

Inductive Result : Type :=
| Revocation (r : CertificateRevocation)
| NotFoundError
| InvalidReasonError
| AlreadyRevokedError.

(** The enumerated revocation reasons, by name. *)
Definition parse_reason (s : string) : option RevocationReason :=
  if String.eqb s "UNSPECIFIED" then Some UNSPECIFIED
  else if String.eqb s "KEY_COMPROMISE" then Some KEY_COMPROMISE
  else if String.eqb s "CA_COMPROMISE" then Some CA_COMPROMISE
  else if String.eqb s "AFFILIATION_CHANGED" then Some AFFILIATION_CHANGED
  else if String.eqb s "SUPERSEDED" then Some SUPERSEDED
  else if String.eqb s "CESSATION_OF_OPERATION" then Some CESSATION_OF_OPERATION
  else if String.eqb s "CERTIFICATE_HOLD" then Some CERTIFICATE_HOLD
  else None.

Definition reason_name (r : RevocationReason) : string :=
  match r with
  | UNSPECIFIED => "UNSPECIFIED"
  | KEY_COMPROMISE => "KEY_COMPROMISE"
  | CA_COMPROMISE => "CA_COMPROMISE"
  | AFFILIATION_CHANGED => "AFFILIATION_CHANGED"
  | SUPERSEDED => "SUPERSEDED"
  | CESSATION_OF_OPERATION => "CESSATION_OF_OPERATION"
  | CERTIFICATE_HOLD => "CERTIFICATE_HOLD"
  end.

Definition set_status (c : Certificate) (s : CertificateStatus) : Certificate :=
  {| cert_id := cert_id c;
     cert_serialNumber := cert_serialNumber c;
     cert_commonName := cert_commonName c;
     cert_subjectAltNames := cert_subjectAltNames c;
     cert_validFrom := cert_validFrom c;
     cert_validTo := cert_validTo c;
     cert_status := s;
     cert_issuedById := cert_issuedById c;
     cert_caId := cert_caId c |}.

Definition revoked_entry (c : Certificate) (reason revokedBy : string) : AuditLog :=
  {| action := CERTIFICATE_REVOKED;
     description := "Certificate revoked: " +:+ cert_commonName c;
     userId := revokedBy;
     username := revokedBy;
     metadata := [("certificateId", JStr (cert_id c)); ("reason", JStr reason)] |}.

(** Modelled from the spec: the revocation route and the manager behind it
    are not part of the sources verified here (their integration tests
    are).  [revoke(certificateId, reason)]: a reason outside the
    enumeration is InvalidReasonError before any write; a certificate that
    does not exist is NotFoundError; an already REVOKED certificate is
    AlreadyRevokedError and nothing is written; on success the
    CertificateRevocation row is created, the certificate's status is set
    to REVOKED and the AuditLog(CERTIFICATE_REVOKED) row is written, as
    one unit. *)
Definition revoke (certificateId reason revokedBy : string) (now : Date)
    (st : Store) : Result * Store :=
  match parse_reason reason with
  | None => (InvalidReasonError, st)
  | Some r =>
      match certificates st !! certificateId with
      | None => (NotFoundError, st)
      | Some c =>
          if decide (cert_status c = REVOKED)
          then (AlreadyRevokedError, st)
          else
            let row := {| rev_certificateId := certificateId;
                          rev_reason := r;
                          rev_revokedAt := now;
                          rev_revokedById := revokedBy |} in
            (Revocation row,
             {| caConfigs := caConfigs st;
                certificates := <[certificateId := set_status c REVOKED]> (certificates st);
                certificateRevocations := certificateRevocations st ++ [row];
                crls := crls st;
                auditLogs := auditLogs st ++ [revoked_entry c reason revokedBy] |})
      end
  end.

End RevocationManager.

(** ** Issuance *)

Module CertificateIssuer.

Inductive KeyAlgorithm : Type := RSA | ECDSA | Ed25519.

Inductive CertificateType : Type := SERVER | CLIENT | CA.

Record Request : Type := {
  commonName : string;
  subjectAltNames : list string;
  keyAlgorithm : KeyAlgorithm;
  keyParameter : string;
  validityDays : Z;
  certificateType : CertificateType;
  caId : string;
  issuedBy : string;
}.

(** What the spec leaves to its collaborators and to configuration: the
    syntax check of one subject alternative name, the allowed key sizes
    and curves per algorithm, the bound on serial allocation attempts, the
    signing primitive over the decrypted CA key ([None]: decrypting or
    signing failed), the clock and the identifier of the new row. *)
Record Env : Type := {
  valid_san : string -> bool;
  allowed_key : KeyAlgorithm -> string -> bool;
  max_attempts : nat;
  sign : CAConfig -> Request -> N -> option string;
  now : Date;
  new_id : string;
}.

Inductive Result : Type :=
| Issued (certificate : Certificate) (encoded : string)
| ValidationError (violation : string)
| CAUnavailableError
| SerialCollisionError
| CryptoError
| PersistenceError.

Definition day_ms : Z := 24 * 60 * 60 * 1000.

(** Step (1): the first violation found, if any. *)
Definition validate (env : Env) (ca : option CAConfig) (request : Request)
  : option string :=
  if String.eqb (commonName request) "" then Some "commonName is required"
  else if negb (forallb (valid_san env) (subjectAltNames request))
  then Some "invalid subjectAltName"
  else if negb (allowed_key env (keyAlgorithm request) (keyParameter request))
  then Some "invalid key size or curve"
  else if (validityDays request <=? 0)%Z then Some "invalid validityDays"
  else
    match ca ≫= ca_validTo with
    | Some validTo =>
        if (validTo <? now env + validityDays request * day_ms)%Z
        then Some "validityDays exceeds the validity of the CA"
        else None
    | None => None
    end.

Definition serial_in_use (st : Store) (caId : string) (serial : string) : bool :=
  bool_decide (map_Exists
    (fun _ c => cert_caId c = caId /\ cert_serialNumber c = serial)
    (certificates st)).

(** Step (3): allocate, and on a collision allocate again, up to
    [attempts] times. *)
Fixpoint allocate (attempts : nat) (caId : string) (st : Store)
    (counters : gmap string N) : option N * gmap string N :=
  match attempts with
  | O => (None, counters)
  | S attempts' =>
      let r := SerialAllocator.nextSerial caId counters in
      if serial_in_use st caId (pretty (fst r))
      then allocate attempts' caId st (snd r)
      else (Some (fst r), snd r)
  end.

Definition issued_entry (request : Request) (serial : string) : AuditLog :=
  {| action := CERTIFICATE_ISSUED;
     description := "Certificate issued: " +:+ commonName request;
     userId := issuedBy request;
     username := issuedBy request;
     metadata := [("serialNumber", JStr serial)] |}.

Definition new_certificate (env : Env) (request : Request) (serial : N)
  : Certificate :=
  {| cert_id := new_id env;
     cert_serialNumber := pretty serial;
     cert_commonName := commonName request;
     cert_subjectAltNames := subjectAltNames request;
     cert_validFrom := now env;
     cert_validTo := now env + validityDays request * day_ms;
     cert_status := ACTIVE;
     cert_issuedById := issuedBy request;
     cert_caId := caId request |}.

(** Step (7): both rows, as one unit. *)
Definition persist (c : Certificate) (entry : AuditLog) (st : Store) : Store :=
  {| caConfigs := caConfigs st;
     certificates := <[cert_id c := c]> (certificates st);
     certificateRevocations := certificateRevocations st;
     crls := crls st;
     auditLogs := auditLogs st ++ [entry] |}.

(** Modelled from the spec: the issuance route and the issuer behind it
    are not part of the sources verified here (their integration tests
    are).  [issue(request)]: (1) validate the inputs, failing on the first
    violation; (2) the CA must be ACTIVE; (3) allocate a serial, retrying
    on collision; (4)-(6) build and sign; (7) persist the Certificate and
    the AuditLog(CERTIFICATE_ISSUED) row as one unit.  Before step (7)
    nothing but the allocator's counter is written. *)
Definition issue (env : Env) (request : Request) (w : World) : Result * World :=
  let st := store w in
  let ca := caConfigs st !! caId request in
  match validate env ca request with
  | Some violation => (ValidationError violation, w)
  | None =>
      match ca with
      | None => (CAUnavailableError, w)
      | Some ca =>
          match ca_status ca with
          | CA_ACTIVE =>
              let a := allocate (max_attempts env) (caId request) st (serials w) in
              let w' := set_serials w (snd a) in
              match fst a with
              | None => (SerialCollisionError, w')
              | Some serial =>
                  match sign env ca request serial with
                  | None => (CryptoError, w')
                  | Some encoded =>
                      match certificates st !! new_id env with
                      | Some _ => (PersistenceError, w')
                      | None =>
                          let c := new_certificate env request serial in
                          (Issued c encoded,
                           set_store w'
                             (persist c (issued_entry request (pretty serial)) st))
                      end
                  end
              end
          | _ => (CAUnavailableError, w)
          end
      end
  end.

End CertificateIssuer.

(** ** The admin settings page: its three requests *)

Module AdminSettings.

(** What [fetch] resolves to, as far as the page reads it: [response.ok]
    and what [response.json()] resolves to. *)
Record FetchResponse : Type := {
  ok : bool;
  json_body : Outcome JSON;
}.

(** The argument of [toast]; a success toast has no variant. *)
Record Toast : Type := {
  title : string;
  toast_description : JSValue;
  variant : option string;
}.

(** The state of the component that the three requests read or set, with
    the toasts shown and the bodies posted so far. *)
Record State : Type := {
  systemConfig : JSON;
  loading : bool;
  maintenanceMode : JSON;
  maintenanceMessage : JSON;
  toasts : list Toast;
  posted : list JSON;
}.

(** The initial state: [useState(null)], [useState(false)], [useState('')]. *)
Definition initial : State :=
  {| systemConfig := JNull;
     loading := false;
     maintenanceMode := JBool false;
     maintenanceMessage := JStr "";
     toasts := [];
     posted := [] |}.

(** Truthiness of a value, as [!v] and [v || w] test it. *)
Definition js_truthy (v : JSValue) : bool :=
  match v with
  | None => false
  | Some JNull => false
  | Some (JBool b) => b
  | Some (JNum n) => negb (n =? 0)%Z
  | Some (JStr s) => negb (String.eqb s "")
  | Some (JArr _) => true
  | Some (JObj _) => true
  end.

(** [v || w] *)
Definition js_or (v : JSValue) (w : JSON) : JSON :=
  match v with
  | Some j => if js_truthy v then j else w
  | None => w
  end.

Definition error_toast (description : string) : Toast :=
  {| title := "Error";
     toast_description := Some (JStr description);
     variant := Some "destructive" |}.

Definition success_toast (message : JSValue) : Toast :=
  {| title := "Success"; toast_description := message; variant := None |}.

Definition show (t : Toast) (st : State) : State :=
  {| systemConfig := systemConfig st;
     loading := loading st;
     maintenanceMode := maintenanceMode st;
     maintenanceMessage := maintenanceMessage st;
     toasts := toasts st ++ [t];
     posted := posted st |}.

Definition setLoading (b : bool) (st : State) : State :=
  {| systemConfig := systemConfig st;
     loading := b;
     maintenanceMode := maintenanceMode st;
     maintenanceMessage := maintenanceMessage st;
     toasts := toasts st;
     posted := posted st |}.

Definition setSystemConfig (data : JSON) (st : State) : State :=
  {| systemConfig := data;
     loading := loading st;
     maintenanceMode := maintenanceMode st;
     maintenanceMessage := maintenanceMessage st;
     toasts := toasts st;
     posted := posted st |}.

Definition setMaintenanceMode (v : JSON) (st : State) : State :=
  {| systemConfig := systemConfig st;
     loading := loading st;
     maintenanceMode := v;
     maintenanceMessage := maintenanceMessage st;
     toasts := toasts st;
     posted := posted st |}.

Definition setMaintenanceMessage (v : JSON) (st : State) : State :=
  {| systemConfig := systemConfig st;
     loading := loading st;
     maintenanceMode := maintenanceMode st;
     maintenanceMessage := v;
     toasts := toasts st;
     posted := posted st |}.

Definition post (body : JSON) (st : State) : State :=
  {| systemConfig := systemConfig st;
     loading := loading st;
     maintenanceMode := maintenanceMode st;
     maintenanceMessage := maintenanceMessage st;
     toasts := toasts st;
     posted := posted st ++ [body] |}.

(** [fetchSystemConfig]: a GET; on an ok response the configuration, the
    mode and the message are taken from the body, a response that is not
    ok is passed over, and an exception is answered with a toast.  The
    sets made before an exception stay. *)
Definition fetchSystemConfig (response : Outcome FetchResponse) (st : State) : State :=
  let failed := show (error_toast "Failed to fetch system configuration") in
  match response with
  | Thrown _ => failed st
  | Returned r =>
      if ok r then
        match json_body r with
        | Thrown _ => failed st
        | Returned data =>
            let st1 := setSystemConfig data st in
            match get_prop "maintenanceMode" data with
            | Thrown _ => failed st1
            | Returned mode =>
                let st2 := setMaintenanceMode (js_or mode (JBool false)) st1 in
                match get_prop "maintenanceMessage" data with
                | Thrown _ => failed st2
                | Returned message =>
                    setMaintenanceMessage (js_or message (JStr "")) st2
                end
            end
        end
      else st
  end.

(** The body that [toggleMaintenanceMode] posts, from the mode and the
    message of the render it was created in. *)
Definition toggle_body (st : State) : JSON :=
  JObj [("action", JStr "toggleMaintenance");
        ("config",
         JObj [("maintenanceMode", JBool (negb (js_truthy (Some (maintenanceMode st)))));
               ("maintenanceMessage", maintenanceMessage st)])].

(** [toggleMaintenanceMode]: [try { ... } catch { toast } finally
    { setLoading(false) }]. *)
Definition toggleMaintenanceMode (response : Outcome FetchResponse) (st : State)
  : State :=
  let failed := show (error_toast "Failed to update maintenance mode") in
  let st0 := post (toggle_body st) (setLoading true st) in
  let st' :=
    match response with
    | Thrown _ => failed st0
    | Returned r =>
        if ok r then
          match json_body r with
          | Thrown _ => failed st0
          | Returned result =>
              let st1 :=
                setMaintenanceMode
                  (JBool (negb (js_truthy (Some (maintenanceMode st))))) st0 in
              match get_prop "message" result with
              | Thrown _ => failed st1
              | Returned message => show (success_toast message) st1
              end
          end
        else failed st0
    end in
  setLoading false st'.

Definition backup_body : JSON :=
  JObj [("action", JStr "createBackup"); ("config", JObj [])].

(** [createBackup] *)
Definition createBackup (response : Outcome FetchResponse) (st : State) : State :=
  let failed := show (error_toast "Failed to create backup") in
  let st0 := post backup_body (setLoading true st) in
  let st' :=
    match response with
    | Thrown _ => failed st0
    | Returned r =>
        if ok r then
          match json_body r with
          | Thrown _ => failed st0
          | Returned result =>
              match get_prop "message" result with
              | Thrown _ => failed st0
              | Returned message => show (success_toast message) st0
              end
          end
        else failed st0
    end in
  setLoading false st'.

(** The fetch resolved, the response was ok and its body was read. *)
Definition accepted (response : Outcome FetchResponse) : bool :=
  match response with
  | Returned r =>
      ok r && match json_body r with Returned _ => true | Thrown _ => false end
  | Thrown _ => false
  end.

End AdminSettings.

(** ** The operations of the system *)

Inductive Operation : Type :=
| GenerateCrl (env : CrlGenerate.Env)
| GetCa (certificateFromPem : string -> option CaRoute.ForgeCertificate)
    (getServerSession : Outcome (option Session)) (id : string)
| DeleteCa (env : CaRoute.Env) (id : string)
| Revoke (certificateId reason revokedBy : string) (now : Date)
| Issue (env : CertificateIssuer.Env) (request : CertificateIssuer.Request).

Definition perform (op : Operation) (w : World) : World :=
  match op with
  | GenerateCrl env => snd (CrlGenerate.POST env w)
  | GetCa forge session id => snd (CaRoute.GET forge session id w)
  | DeleteCa env id => snd (CaRoute.DELETE env id w)
  | Revoke certificateId reason revokedBy now =>
      set_store w (snd (RevocationManager.revoke certificateId reason revokedBy now (store w)))
  | Issue env request => snd (CertificateIssuer.issue env request w)
  end.

Fixpoint run (ops : list Operation) (w : World) : World :=
  match ops with
  | [] => w
  | op :: rest => run rest (perform op w)
  end.

(** The deletion of CA [caId] by an administrator. *)
Definition is_ca_deletion (caId : string) (op : Operation) : bool :=
  match op with
  | DeleteCa env id =>
      match CaRoute.getServerSession env with
      | Returned (Some session) =>
          negb (CaRoute.not_admin session) && String.eqb id caId
      | _ => false
      end
  | _ => false
  end.

(** What an operation may do to a Certificate row short of deleting it. *)
Definition kept (c c' : Certificate) : Prop :=
  c' = c \/ c' = RevocationManager.set_status c REVOKED.

(** ** Concrete data (after the fixtures of the integration tests) *)

Module Examples.

Definition session_of (r : string) (perms : option (list string)) : Session :=
  {| user := {| user_id := "user-1";
                user_username := "testuser";
                role := r;
                permissions := perms |} |}.

Definition operator : Session := session_of "OPERATOR" (Some ["crl:manage"]).
Definition administrator : Session := session_of "ADMIN" (Some ["crl:manage"]).
Definition viewer : Session := session_of "VIEWER" (Some []).

Definition testCA : CAConfig :=
  {| ca_id := "ca-1";
     ca_name := "Test CA";
     ca_subjectDN := "CN=test-ca.example.com,O=Test Organization,C=US";
     ca_privateKey := "encrypted-key-material";
     ca_certificate := Some "not a certificate";
     ca_certificateChain := None;
     ca_status := CA_ACTIVE;
     ca_keyAlgorithm := "RSA";
     ca_keySize := Some 2048;
     ca_curve := None;
     ca_validFrom := Some 0;
     ca_validTo := Some 315360000000;
     ca_crlNumber := 0;
     ca_crlDistributionPoint := None;
     ca_ocspUrl := None |}.

Definition testCertificate : Certificate :=
  {| cert_id := "cert-1";
     cert_serialNumber := "REVOKE-TEST-001";
     cert_commonName := "revoke-test.example.com";
     cert_subjectAltNames := ["revoke-test.example.com"];
     cert_validFrom := 0;
     cert_validTo := 31536000000;
     cert_status := ACTIVE;
     cert_issuedById := "user-1";
     cert_caId := "ca-1" |}.

Definition testStore : Store :=
  {| caConfigs := {[ "ca-1" := testCA ]};
     certificates := {[ "cert-1" := testCertificate ]};
     certificateRevocations := [];
     crls := [];
     auditLogs := [] |}.

Definition testWorld : World :=
  {| store := testStore; serviceCalls := []; serials := ∅ |}.

(** A CAService as section 4.3 describes it, for the CA of the tests: a
    call that resolves to [pem] has incremented the CA's crlNumber,
    persisted the CRL under the new number and written an AuditLog row of
    its own; a call that throws has written nothing. *)
Definition next_crlNumber (ca : CAConfig) : CAConfig :=
  {| ca_id := ca_id ca;
     ca_name := ca_name ca;
     ca_subjectDN := ca_subjectDN ca;
     ca_privateKey := ca_privateKey ca;
     ca_certificate := ca_certificate ca;
     ca_certificateChain := ca_certificateChain ca;
     ca_status := ca_status ca;
     ca_keyAlgorithm := ca_keyAlgorithm ca;
     ca_keySize := ca_keySize ca;
     ca_curve := ca_curve ca;
     ca_validFrom := ca_validFrom ca;
     ca_validTo := ca_validTo ca;
     ca_crlNumber := ca_crlNumber ca + 1;
     ca_crlDistributionPoint := ca_crlDistributionPoint ca;
     ca_ocspUrl := ca_ocspUrl ca |}.

Definition service_entry : AuditLog :=
  {| action := CRL_GENERATED;
     description := "CRL generated for CA ca-1";
     userId := "system";
     username := "system";
     metadata := [] |}.

Definition generation_writes (service : Outcome string) (st : Store) : ServiceWrites :=
  match service, caConfigs st !! "ca-1" with
  | Returned pem, Some ca =>
      {| written_caConfigs := <["ca-1" := next_crlNumber ca]> (caConfigs st);
         written_crls :=
           crls st ++ [ {| crl_caId := "ca-1";
                           crl_number := ca_crlNumber ca + 1;
                           crl_pem := pem |} ];
         written_auditLogs := [service_entry] |}
  | _, _ => no_writes st
  end.

(** A CRL request by an operator: the body is as given, CAService
    resolves or throws as given, the audit sink works. *)
Definition crl_env (body : JSON) (service : Outcome string) : CrlGenerate.Env :=
  {| CrlGenerate.getApiSession := Returned (Some operator);
     CrlGenerate.getApiSession_in_catch := Returned (Some operator);
     CrlGenerate.request_json := Returned body;
     CrlGenerate.CAService_generateCRL := fun _ => service;
     CrlGenerate.CAService_generateDeltaCRL := fun _ => service;
     CrlGenerate.CAService_writes := fun _ => generation_writes service;
     CrlGenerate.audit_fails := fun _ => None;
     CrlGenerate.now := "2025-01-01T00:00:00.000Z";
     CrlGenerate.now_in_catch := "2025-01-01T00:00:00.001Z" |}.

Definition delete_env (session : Session) : CaRoute.Env :=
  {| CaRoute.getServerSession := Returned (Some session);
     CaRoute.audit_fails := fun _ => None |}.

(** The same world with another private key stored for the CA. *)
Definition rekeyedCA : CAConfig :=
  {| ca_id := ca_id testCA;
     ca_name := ca_name testCA;
     ca_subjectDN := ca_subjectDN testCA;
     ca_privateKey := "other-key-material";
     ca_certificate := ca_certificate testCA;
     ca_certificateChain := ca_certificateChain testCA;
     ca_status := ca_status testCA;
     ca_keyAlgorithm := ca_keyAlgorithm testCA;
     ca_keySize := ca_keySize testCA;
     ca_curve := ca_curve testCA;
     ca_validFrom := ca_validFrom testCA;
     ca_validTo := ca_validTo testCA;
     ca_crlNumber := ca_crlNumber testCA;
     ca_crlDistributionPoint := ca_crlDistributionPoint testCA;
     ca_ocspUrl := ca_ocspUrl testCA |}.

Definition rekeyedWorld : World :=
  {| store :=
       {| caConfigs := {[ "ca-1" := rekeyedCA ]};
          certificates := {[ "cert-1" := testCertificate ]};
          certificateRevocations := [];
          crls := [];
          auditLogs := [] |};
     serviceCalls := [];
     serials := ∅ |}.

Definition issuer_env : CertificateIssuer.Env :=
  {| CertificateIssuer.valid_san := fun s => negb (String.eqb s "");
     CertificateIssuer.allowed_key :=
       fun alg p =>
         match alg with
         | CertificateIssuer.RSA => includes ["2048"; "3072"; "4096"] p
         | CertificateIssuer.ECDSA => includes ["P-256"; "P-384"; "P-521"] p
         | CertificateIssuer.Ed25519 => true
         end;
     CertificateIssuer.max_attempts := 3;
     CertificateIssuer.sign := fun _ _ _ => Some "-----BEGIN CERTIFICATE-----";
     CertificateIssuer.now := 1000;
     CertificateIssuer.new_id := "cert-2" |}.

Definition request_for (cn : string) : CertificateIssuer.Request :=
  {| CertificateIssuer.commonName := cn;
     CertificateIssuer.subjectAltNames := [];
     CertificateIssuer.keyAlgorithm := CertificateIssuer.RSA;
     CertificateIssuer.keyParameter := "2048";
     CertificateIssuer.validityDays := 365;
     CertificateIssuer.certificateType := CertificateIssuer.SERVER;
     CertificateIssuer.caId := "ca-1";
     CertificateIssuer.issuedBy := "user-1" |}.

(** A chain of two PEM blocks, the second of which is damaged. *)
Definition good_block : string :=
  "-----BEGIN CERTIFICATE-----MIIB-----END CERTIFICATE-----".
Definition damaged_block : string :=
  "-----BEGIN CERTIFICATE-----????-----END CERTIFICATE-----".

Definition chainCA : CAConfig :=
  {| ca_id := "ca-3";
     ca_name := "Chained CA";
     ca_subjectDN := "CN=chained-ca.example.com";
     ca_privateKey := "encrypted-key-material";
     ca_certificate := None;
     ca_certificateChain := Some (good_block +:+ "
" +:+ damaged_block +:+ "
");
     ca_status := CA_ACTIVE;
     ca_keyAlgorithm := "RSA";
     ca_keySize := Some 2048;
     ca_curve := None;
     ca_validFrom := None;
     ca_validTo := None;
     ca_crlNumber := 0;
     ca_crlDistributionPoint := None;
     ca_ocspUrl := None |}.

(** A parser that accepts [good_block] only. *)
Definition forge_accepts_good : string -> option CaRoute.ForgeCertificate :=
  fun pem =>
    if String.eqb pem good_block
    then Some {| CaRoute.subject_CN := Some "intermediate.example.com";
                 CaRoute.issuer_CN := Some "root.example.com";
                 CaRoute.validity_notBefore := 0;
                 CaRoute.validity_notAfter := 315360000000;
                 CaRoute.publicKey_type := None |}
    else None.

(** A parser that rejects every text. *)
Definition forge_rejects : string -> option CaRoute.ForgeCertificate :=
  fun _ => None.

(** A CA whose stored certificate parses. *)
Definition certifiedCA : CAConfig :=
  {| ca_id := "ca-4";
     ca_name := "Certified CA";
     ca_subjectDN := "CN=intermediate.example.com";
     ca_privateKey := "encrypted-key-material";
     ca_certificate := Some good_block;
     ca_certificateChain := None;
     ca_status := CA_ACTIVE;
     ca_keyAlgorithm := "RSA";
     ca_keySize := Some 2048;
     ca_curve := None;
     ca_validFrom := None;
     ca_validTo := None;
     ca_crlNumber := 0;
     ca_crlDistributionPoint := None;
     ca_ocspUrl := None |}.

(** A world of two CAs, each with a certificate, a revocation and a CRL,
    and with a certificate left over from a CA that has no row. *)
Definition otherCertificate : Certificate :=
  {| cert_id := "cert-3";
     cert_serialNumber := "2";
     cert_commonName := "other.example.com";
     cert_subjectAltNames := [];
     cert_validFrom := 0;
     cert_validTo := 31536000000;
     cert_status := REVOKED;
     cert_issuedById := "user-1";
     cert_caId := "ca-2" |}.

Definition leftoverCertificate : Certificate :=
  {| cert_id := "cert-9";
     cert_serialNumber := "9";
     cert_commonName := "leftover.example.com";
     cert_subjectAltNames := [];
     cert_validFrom := 0;
     cert_validTo := 31536000000;
     cert_status := ACTIVE;
     cert_issuedById := "user-1";
     cert_caId := "ca-9" |}.

Definition twoCaWorld : World :=
  {| store :=
       {| caConfigs := {[ "ca-1" := testCA; "ca-2" := rekeyedCA ]};
          certificates := {[ "cert-1" := testCertificate;
                             "cert-3" := otherCertificate;
                             "cert-9" := leftoverCertificate ]};
          certificateRevocations :=
            [ {| rev_certificateId := "cert-3"; rev_reason := SUPERSEDED;
                 rev_revokedAt := 500; rev_revokedById := "user-1" |} ];
          crls := [ {| crl_caId := "ca-1"; crl_number := 1; crl_pem := "crl-1" |};
                    {| crl_caId := "ca-2"; crl_number := 1; crl_pem := "crl-2" |} ];
          auditLogs := [] |};
     serviceCalls := [];
     serials := ∅ |}.

Definition delete_env_audit_down (session : Session) : CaRoute.Env :=
  {| CaRoute.getServerSession := Returned (Some session);
     CaRoute.audit_fails := fun _ => Some "audit store unavailable" |}.

(** The CRL request of an operator while the audit sink is down. *)
Definition crl_env_audit_down (body : JSON) (service : Outcome string)
  : CrlGenerate.Env :=
  {| CrlGenerate.getApiSession := Returned (Some operator);
     CrlGenerate.getApiSession_in_catch := Returned (Some operator);
     CrlGenerate.request_json := Returned body;
     CrlGenerate.CAService_generateCRL := fun _ => service;
     CrlGenerate.CAService_generateDeltaCRL := fun _ => service;
     CrlGenerate.CAService_writes := fun _ => generation_writes service;
     CrlGenerate.audit_fails := fun _ => Some "audit store unavailable";
     CrlGenerate.now := "2025-01-01T00:00:00.000Z";
     CrlGenerate.now_in_catch := "2025-01-01T00:00:00.001Z" |}.

(** The CRL request of an operator whose body does not parse. *)
Definition crl_env_bad_body : CrlGenerate.Env :=
  {| CrlGenerate.getApiSession := Returned (Some operator);
     CrlGenerate.getApiSession_in_catch := Returned (Some operator);
     CrlGenerate.request_json := Thrown "Unexpected token i in JSON at position 0";
     CrlGenerate.CAService_generateCRL := fun _ => Returned "crl";
     CrlGenerate.CAService_generateDeltaCRL := fun _ => Returned "crl";
     CrlGenerate.CAService_writes := fun _ => generation_writes (Returned "crl");
     CrlGenerate.audit_fails := fun _ => None;
     CrlGenerate.now := "2025-01-01T00:00:00.000Z";
     CrlGenerate.now_in_catch := "2025-01-01T00:00:00.001Z" |}.

End Examples.

(** ** Vocabulary of the further properties *)

Module CrlGenerateTerms.

Import CrlGenerate.

(** The request got as far as the choice of the generator: the session was
    resolved, it has the permission, and the body was read and
    destructured into [type] and [caId]. *)
Definition reaches_generation (env : Env) (session : Session) (type : JSON)
    (caId : JSValue) : Prop :=
  getApiSession env = Returned (Some session) /\
  (exists perms, permissions (user session) = Some perms /\
                 includes perms "crl:manage" = true) /\
  (exists body, request_json env = Returned body /\
                destructure body = Returned (type, caId)).

(** What the chosen entry point of CAService answers, the call that is
    recorded for it, and the description that goes with it. *)
Definition selected (env : Env) (type : JSON) (caId : JSValue) : Outcome string :=
  if strict_eq_str type "delta"
  then CAService_generateDeltaCRL env caId
  else CAService_generateCRL env caId.

Definition selected_call (type : JSON) (caId : JSValue) : ServiceCall :=
  if strict_eq_str type "delta" then generateDeltaCRL caId else generateCRL caId.

Definition description_of (type : JSON) : string :=
  if strict_eq_str type "delta"
  then "Delta CRL generated successfully"
  else "Full CRL generated successfully".

End CrlGenerateTerms.

Module PemTerms.

Import Pem.
Import Stdlib.Strings.Ascii.

(** A text without the character '-': Base64 bodies and the white space
    between blocks are such. *)
Fixpoint dash_free (s : string) : bool :=
  match s with
  | EmptyString => true
  | String c rest => negb (Ascii.eqb c "-"%char) && dash_free rest
  end.

(** A PEM block around a body. *)
Definition block (body : string) : string := BEGIN +:+ body +:+ END.

(** A chain file: blocks, each after some text, and a last piece of text. *)
Fixpoint chain_of (items : list (string * string)) (tail : string) : string :=
  match items with
  | [] => tail
  | (gap, body) :: rest => gap +:+ BEGIN +:+ body +:+ END +:+ chain_of rest tail
  end.

(** Texts alternating with blocks, then a last piece of text. *)
Fixpoint interleave (gaps blocks : list string) (tail : string) : string :=
  match gaps, blocks with
  | gap :: gaps', b :: blocks' => gap +:+ b +:+ interleave gaps' blocks' tail
  | _, _ => tail
  end.

End PemTerms.

Module CaRouteTerms.

Import CaRoute.

(** The database after the four deletions of the transaction. *)
Definition cascade (id : string) (st : Store) : Store :=
  {| caConfigs := delete id (caConfigs st);
     certificates := filter (fun kc => cert_caId (snd kc) ≠ id) (certificates st);
     certificateRevocations :=
       List.filter (fun r => negb (revocation_of_ca (certificates st) id r))
         (certificateRevocations st);
     crls := List.filter (fun c => negb (String.eqb (crl_caId c) id)) (crls st);
     auditLogs := auditLogs st |}.

(** The ways a run of DELETE can go, each with its answer and the world it
    leaves. *)
Inductive DeleteRun (env : Env) (id : string) (w : World)
  : Response DeletePayload * World -> Prop :=
| run_session_throws (message : string) :
    getServerSession env = Thrown message ->
    DeleteRun env id w (json (DeleteError "Failed to delete CA") 500, w)
| run_no_session :
    getServerSession env = Returned None ->
    DeleteRun env id w (json (DeleteError "Unauthorized") 401, w)
| run_not_admin (session : Session) :
    getServerSession env = Returned (Some session) ->
    not_admin session = true ->
    DeleteRun env id w (json (DeleteError "Unauthorized") 401, w)
| run_no_id (session : Session) :
    getServerSession env = Returned (Some session) ->
    not_admin session = false ->
    id = "" ->
    DeleteRun env id w (json (DeleteError "CA id is required") 400, w)
| run_no_row (session : Session) :
    getServerSession env = Returned (Some session) ->
    not_admin session = false ->
    id <> "" ->
    caConfigs (store w) !! id = None ->
    DeleteRun env id w (json (DeleteError "Failed to delete CA") 500, w)
| run_audit_throws (session : Session) (ca : CAConfig) (message : string) :
    getServerSession env = Returned (Some session) ->
    not_admin session = false ->
    id <> "" ->
    caConfigs (store w) !! id = Some ca ->
    audit_fails env (deleted_entry session id) = Some message ->
    DeleteRun env id w
      (json (DeleteError "Failed to delete CA") 500,
       set_store w (cascade id (store w)))
| run_deleted (session : Session) (ca : CAConfig) :
    getServerSession env = Returned (Some session) ->
    not_admin session = false ->
    id <> "" ->
    caConfigs (store w) !! id = Some ca ->
    audit_fails env (deleted_entry session id) = None ->
    DeleteRun env id w
      (json DeleteSuccess 200,
       set_store w
         (set_auditLogs (cascade id (store w))
            (auditLogs (store w) ++ [deleted_entry session id]))).

(** Every revocation row refers to a certificate row. *)
Definition revocations_resolve (st : Store) : Prop :=
  Forall (fun r => is_Some (certificates st !! rev_certificateId r))
    (certificateRevocations st).

End CaRouteTerms.

(** * Properties *)

(** ** CRL generation *)

Section CrlGenerateProperties.

Import CrlGenerate.

(** Unfolding of the handler and of the monad it is written in. *)
Ltac unfold_handler :=
  unfold POST, POST_catch, POST_try, log_failure, generate,
    call_generateCRL, call_generateDeltaCRL, CAService_call, AuditService_log,
    try_catch, bind, await, ret, throw, write, query in *.

(** Neither the handler nor CAService writes to the Certificate and
    CertificateRevocation tables or allocates a serial. *)
Lemma POST_tables (env : Env) (w : World) :
  certificates (store (snd (POST env w))) = certificates (store w) /\
  certificateRevocations (store (snd (POST env w))) = certificateRevocations (store w) /\
  serials (snd (POST env w)) = serials w.
Proof.
  unfold_handler.
  repeat (case_match; simplify_eq/=); auto.
Qed.

(** A run makes at most one call into CAService, and a call of
    generateDeltaCRL only for a body whose [type] is "delta". *)
Lemma POST_calls (env : Env) (w : World) :
  serviceCalls (snd (POST env w)) = serviceCalls w \/
  (exists body type caId,
     request_json env = Returned body /\
     destructure body = Returned (type, caId) /\
     (strict_eq_str type "delta" = true /\
      serviceCalls (snd (POST env w)) = serviceCalls w ++ [generateDeltaCRL caId] \/
      strict_eq_str type "delta" = false /\
      serviceCalls (snd (POST env w)) = serviceCalls w ++ [generateCRL caId])).
Proof.
  unfold_handler.
  repeat (case_match; simplify_eq/=); try (left; reflexivity); right;
    match goal with fields : (JSON * JSValue)%type |- _ => destruct fields end;
    simpl in *; eauto 10.
Qed.

(** The call a run made is the one call it added to the record. *)
Lemma POST_call_made (env : Env) (w : World) :
  exists calls : list ServiceCall,
    serviceCalls (snd (POST env w)) = serviceCalls w ++ calls /\
    call_made env w = head calls /\
    (length calls <= 1)%nat.
Proof.
  unfold call_made.
  destruct (POST_calls env w) as [H | (body & type & caId & _ & _ & [[_ H] | [_ H]])];
    rewrite H.
  - exists []. rewrite app_nil_r, drop_all. auto.
  - eexists [_]. rewrite drop_app_length. auto.
  - eexists [_]. rewrite drop_app_length. auto.
Qed.

Lemma app_self_nil {A : Type} (l k : list A) : l = l ++ k -> k = [].
Proof.
  intros H. apply (app_inv_head l). rewrite app_nil_r. symmetry. exact H.
Qed.

(** What the record of the calls says about the call that was made. *)
Ltac settle_calls :=
  repeat match goal with
         | H : ?l = ?l ++ _ |- _ => apply app_self_nil in H
         | H : ?l ++ _ = ?l ++ _ |- _ => apply app_inv_head in H
         end;
  simplify_eq/=.

(** C1, as the handler has it.  The rows the handler itself appends to the
    AuditLog table, after those CAService left during its call, are these:
    on a successful run (200) exactly one, of action CRL_GENERATED, for the
    caller's session and with the description of the response; on a run
    refused with 401 or 403 none, and the table is as it was; on a run that
    fails with 500 exactly one when the catch block resolves a session and
    the audit sink takes the row, and none otherwise, and that one is again
    of action CRL_GENERATED and describes the failure. *)
Theorem POST_audit_rows (env : Env) (w : World) :
  exists rows : list AuditLog,
    appended env w rows /\
    Forall (fun e => action e = CRL_GENERATED) rows /\
    match payload (fst (POST env w)) with
    | Success message crl type =>
        status (fst (POST env w)) = 200 /\
        exists session,
          getApiSession env = Returned (Some session) /\
          rows = [success_entry env session type message]
    | Error _ =>
        (status (fst (POST env w)) = 401 \/ status (fst (POST env w)) = 403) /\
        rows = [] /\
        auditLogs (store (snd (POST env w))) = auditLogs (store w)
    | Failure _ details =>
        status (fst (POST env w)) = 500 /\
        rows = failure_rows env details /\
        (forall session,
            getApiSession_in_catch env = Returned (Some session) ->
            audit_fails env (failure_entry env session details) = None ->
            rows = [failure_entry env session details])
    end.
Proof.
  unfold appended, service_store.
  destruct (POST_call_made env w) as (calls & Hcalls & -> & _).
  revert Hcalls. unfold failure_rows. unfold_handler.
  repeat (case_match; simplify_eq/=); intros Hcalls; settle_calls;
    try (exists []; rewrite app_nil_r; repeat split; eauto; congruence);
    eexists [_]; (split; [reflexivity|]); (split; [repeat constructor|]);
    repeat split; eauto; congruence.
Qed.

(** C1, the claim as written fails: CAService throws, the run answers 500,
    and the AuditLog table, empty before, holds one CRL_GENERATED row. *)
Lemma POST_failed_run_is_logged :
  let env := Examples.crl_env (JObj [("caId", JStr "ca-1")]) (Thrown "CA not found") in
  auditLogs (store Examples.testWorld) = [] /\
  status (fst (POST env Examples.testWorld)) = 500 /\
  auditLogs (store (snd (POST env Examples.testWorld))) =
    [ {| action := CRL_GENERATED;
         description := "CRL generation failed: CA not found";
         userId := "user-1";
         username := "testuser";
         metadata := [("error", JStr "CA not found");
                      ("timestamp", JStr "2025-01-01T00:00:00.001Z")] |} ].
Proof. repeat split; vm_compute; reflexivity. Qed.

(** Runs of the handler: a delta CRL is generated by the service, which
    numbers it, persists it and logs it, and the handler logs it again; a
    viewer without the permission is refused and nothing is called or
    written. *)
Example POST_delta_run :
  POST (Examples.crl_env (JObj [("type", JStr "delta"); ("caId", JStr "ca-1")])
          (Returned "crl"))
    Examples.testWorld =
  (json (Success "Delta CRL generated successfully" "crl" (JStr "delta")) 200,
   {| store :=
        {| caConfigs := {[ "ca-1" := Examples.next_crlNumber Examples.testCA ]};
           certificates := certificates Examples.testStore;
           certificateRevocations := [];
           crls := [ {| crl_caId := "ca-1"; crl_number := 1; crl_pem := "crl" |} ];
           auditLogs :=
             [ Examples.service_entry;
               {| action := CRL_GENERATED;
                  description := "Delta CRL generated successfully";
                  userId := "user-1";
                  username := "testuser";
                  metadata := [("crlType", JStr "delta");
                               ("timestamp", JStr "2025-01-01T00:00:00.000Z")] |} ] |};
      serviceCalls := [generateDeltaCRL (Some (JStr "ca-1"))];
      serials := ∅ |}).
Proof. vm_compute. reflexivity. Qed.

Example POST_refused_run :
  POST {| getApiSession := Returned (Some Examples.viewer);
          getApiSession_in_catch := Returned (Some Examples.viewer);
          request_json := Returned (JObj []);
          CAService_generateCRL := fun _ => Returned "crl";
          CAService_generateDeltaCRL := fun _ => Returned "crl";
          CAService_writes := fun _ => Examples.generation_writes (Returned "crl");
          audit_fails := fun _ => None;
          now := "";
          now_in_catch := "" |}
    Examples.testWorld =
  (json (Error "Insufficient permissions") 403, Examples.testWorld).
Proof. vm_compute. reflexivity. Qed.

(** C9: once the request is authenticated, permitted and its body read,
    the handler makes exactly one call into CAService: generateDeltaCRL
    when the body's [type] is the string "delta", generateCRL when [type]
    is missing or is anything else. *)
Theorem POST_type_selects_generator (env : Env) (w : World) (session : Session)
    (perms : list string) (body : JSON) (type caId : JSValue) :
  getApiSession env = Returned (Some session) ->
  permissions (user session) = Some perms ->
  includes perms "crl:manage" = true ->
  request_json env = Returned body ->
  get_prop "type" body = Returned type ->
  get_prop "caId" body = Returned caId ->
  (type = Some (JStr "delta") ->
   serviceCalls (snd (POST env w)) = serviceCalls w ++ [generateDeltaCRL caId]) /\
  (type <> Some (JStr "delta") ->
   serviceCalls (snd (POST env w)) = serviceCalls w ++ [generateCRL caId]).
Proof.
  intros Hs Hp Hi Hb Ht Hc.
  assert (Hsel : strict_eq_str (default (JStr "full") type) "delta" = true
                 <-> type = Some (JStr "delta")).
  { destruct type as [[| | |s| |]|]; simpl; split; try congruence.
    - intros ->%String.eqb_eq. reflexivity.
    - intros [= ->]. reflexivity. }
  unfold_handler. unfold destructure.
  rewrite Hs, Hp, Hi, Hb, Ht, Hc. simpl.
  destruct (strict_eq_str (default (JStr "full") type) "delta").
  - assert (type = Some (JStr "delta")) by (apply Hsel; reflexivity).
    split; [intros _ | congruence].
    repeat (case_match; simplify_eq/=); reflexivity.
  - assert (type <> Some (JStr "delta")) by (intros H; apply Hsel in H; discriminate).
    split; [congruence | intros _].
    repeat (case_match; simplify_eq/=); reflexivity.
Qed.

Lemma POST_type_selects_generator_witness :
  let env := Examples.crl_env (JObj [("type", JStr "delta"); ("caId", JStr "ca-1")])
               (Returned "-----BEGIN X509 CRL-----") in
  (Some (JStr "delta") = Some (JStr "delta") ->
   serviceCalls (snd (POST env Examples.testWorld)) =
     serviceCalls Examples.testWorld ++ [generateDeltaCRL (Some (JStr "ca-1"))]) /\
  (Some (JStr "delta") <> Some (JStr "delta") ->
   serviceCalls (snd (POST env Examples.testWorld)) =
     serviceCalls Examples.testWorld ++ [generateCRL (Some (JStr "ca-1"))]).
Proof.
  apply (POST_type_selects_generator
           (Examples.crl_env (JObj [("type", JStr "delta"); ("caId", JStr "ca-1")])
              (Returned "-----BEGIN X509 CRL-----"))
           Examples.testWorld Examples.operator ["crl:manage"]
           (JObj [("type", JStr "delta"); ("caId", JStr "ca-1")]));
    reflexivity.
Defined.

End CrlGenerateProperties.

(** ** The CA route *)

Section CaRouteProperties.

Import CaRoute.

Ltac unfold_route :=
  unfold GET, GET_try, DELETE, DELETE_try, delete_cascade, cAConfig_delete,
    transaction, AuditService_log, try_catch, bind, await, ret, throw,
    write, query in *.

(** C6: a caller whose role is not ADMIN is answered 401 Unauthorized by
    the deletion handler, and the world is left as it was: no CA,
    Certificate, CertificateRevocation or CRL row is deleted (nor is
    anything else written). *)
Theorem DELETE_requires_admin (env : Env) (id : string) (w : World)
    (session : Session) :
  getServerSession env = Returned (Some session) ->
  role (user session) <> "ADMIN" ->
  DELETE env id w = (json (DeleteError "Unauthorized") 401, w).
Proof.
  intros Hs Hrole. unfold_route. rewrite Hs. simpl.
  unfold not_admin.
  destruct (String.eqb_spec (role (user session)) "ADMIN") as [E|_];
    [contradiction | reflexivity].
Qed.

Lemma DELETE_requires_admin_witness :
  DELETE (Examples.delete_env Examples.operator) "ca-1" Examples.testWorld =
    (json (DeleteError "Unauthorized") 401, Examples.testWorld).
Proof.
  apply (DELETE_requires_admin (Examples.delete_env Examples.operator) "ca-1"
           Examples.testWorld Examples.operator).
  - reflexivity.
  - discriminate.
Defined.

(** Without a session at all the answer is the same. *)
Lemma DELETE_requires_session (env : Env) (id : string) (w : World) :
  getServerSession env = Returned None ->
  DELETE env id w = (json (DeleteError "Unauthorized") 401, w).
Proof. intros Hs. unfold_route. rewrite Hs. reflexivity. Qed.

(** What a deletion does to the Certificate table: nothing, or the rows
    of the deleted CA are gone and the others are as they were. *)
Lemma DELETE_certificates (env : Env) (id : string) (w : World) :
  certificates (store (snd (DELETE env id w))) = certificates (store w) \/
  (exists session,
     getServerSession env = Returned (Some session) /\
     not_admin session = false /\
     certificates (store (snd (DELETE env id w))) =
       filter (fun kc => cert_caId (snd kc) ≠ id) (certificates (store w))).
Proof.
  unfold_route.
  repeat (case_match; simplify_eq/=); eauto.
Qed.

(** C3, the claim as written fails: an administrator deletes CA "ca-1",
    and the certificate "cert-1" that it had issued is deleted with it. *)
Lemma DELETE_deletes_certificates :
  certificates (store Examples.testWorld) !! "cert-1" = Some Examples.testCertificate /\
  status (fst (DELETE (Examples.delete_env Examples.administrator) "ca-1"
                 Examples.testWorld)) = 200 /\
  certificates (store (snd (DELETE (Examples.delete_env Examples.administrator) "ca-1"
                              Examples.testWorld))) !! "cert-1" = None.
Proof. repeat split; vm_compute; reflexivity. Qed.

(** *** GET: parse failures *)

Lemma omap_parse_block_rejected (forge : string -> option ForgeCertificate)
    (blocks : list string) :
  Forall (fun b => forge b = None) blocks ->
  omap (parse_block forge) blocks = [].
Proof.
  induction 1 as [|b blocks Hb _ IH]; [reflexivity|].
  simpl. unfold parse_block at 1. rewrite Hb. exact IH.
Qed.

Lemma truthy_Some (s : string) : s <> "" -> truthy (Some s) = true.
Proof.
  intros Hs. simpl. destruct (String.eqb_spec s ""); [contradiction | reflexivity].
Qed.

(** C7, as the handler has it: parse failures are swallowed.  For a CA
    whose stored certificate does not parse, GET answers 200 with
    [hasCertificate] true and [certificateInfo] null, and gives no
    reason; for a stored chain none of whose PEM blocks parses, it
    answers with a chain of count 0, no entries and a null root. *)
Theorem GET_parse_failure_is_silent (forge : string -> option ForgeCertificate)
    (session : Session) (id : string) (w : World) (ca : CAConfig) :
  id <> "" ->
  caConfigs (store w) !! id = Some ca ->
  exists d : Details,
    GET forge (Returned (Some session)) id w = (json (GetDetails d) 200, w) /\
    (forall pem, ca_certificate ca = Some pem -> pem <> "" -> forge pem = None ->
       hasCertificate d = true /\ certificateInfo d = None) /\
    (forall chain, ca_certificateChain ca = Some chain -> chain <> "" ->
       Forall (fun b => forge b = None) (Pem.match_blocks chain) ->
       hasCertificateChain d = true /\
       certificateChainInfo d = Some {| count := 0; entries := []; rootCN := None |}).
Proof.
  intros Hid Hca. exists (details forge ca). split; [|split].
  - unfold_route. simpl.
    destruct (String.eqb_spec id ""); [contradiction|].
    simpl. rewrite Hca. reflexivity.
  - intros pem Hpem Hne Hfail. simpl.
    unfold derive_certInfo. rewrite Hpem, (truthy_Some pem Hne). simpl.
    rewrite Hfail. split; reflexivity.
  - intros chain Hchain Hne Hfail. simpl.
    unfold derive_chainInfo. rewrite Hchain, (truthy_Some chain Hne). simpl.
    rewrite (omap_parse_block_rejected forge _ Hfail). split; reflexivity.
Qed.

Lemma GET_parse_failure_is_silent_witness :
  exists d : Details,
    GET Examples.forge_rejects (Returned (Some Examples.viewer)) "ca-1"
      Examples.testWorld = (json (GetDetails d) 200, Examples.testWorld) /\
    (forall pem, ca_certificate Examples.testCA = Some pem -> pem <> "" ->
       Examples.forge_rejects pem = None ->
       hasCertificate d = true /\ certificateInfo d = None) /\
    (forall chain, ca_certificateChain Examples.testCA = Some chain -> chain <> "" ->
       Forall (fun b => Examples.forge_rejects b = None) (Pem.match_blocks chain) ->
       hasCertificateChain d = true /\
       certificateChainInfo d = Some {| count := 0; entries := []; rootCN := None |}).
Proof.
  apply (GET_parse_failure_is_silent Examples.forge_rejects Examples.viewer "ca-1"
           Examples.testWorld Examples.testCA).
  - discriminate.
  - reflexivity.
Defined.

(** C7, the claim as written fails: the stored certificate of "ca-1" does
    not parse, and the answer is a plain 200 whose [certificateInfo] is
    null, exactly as for a CA that has no certificate to parse. *)
Lemma GET_swallows_parse_failure :
  ca_certificate Examples.testCA = Some "not a certificate" /\
  Examples.forge_rejects "not a certificate" = None /\
  exists d : Details,
    fst (GET Examples.forge_rejects (Returned (Some Examples.viewer)) "ca-1"
           Examples.testWorld) = json (GetDetails d) 200 /\
    hasCertificate d = true /\
    certificateInfo d = None.
Proof.
  split; [reflexivity|]. split; [reflexivity|].
  exists (details Examples.forge_rejects Examples.testCA).
  repeat split; vm_compute; reflexivity.
Qed.

(** Of a chain of two blocks of which one parses, the answer shows one. *)
Example GET_drops_damaged_block :
  Pem.match_blocks (default "" (ca_certificateChain Examples.chainCA)) =
    [Examples.good_block; Examples.damaged_block] /\
  derive_chainInfo Examples.forge_accepts_good Examples.chainCA =
    Some {| count := 1;
            entries := [ {| entry_subjectCN := Some "intermediate.example.com";
                            entry_issuerCN := Some "root.example.com";
                            entry_notBefore := 0;
                            entry_notAfter := 315360000000 |} ];
            rootCN := Some "root.example.com" |}.
Proof. split; vm_compute; reflexivity. Qed.

(** *** GET: the private key *)

Lemma details_public_part (forge : string -> option ForgeCertificate)
    (ca1 ca2 : CAConfig) :
  public_part ca1 = public_part ca2 -> details forge ca1 = details forge ca2.
Proof.
  intros H.
  transitivity (details forge (public_part ca1)); [reflexivity|].
  rewrite H. reflexivity.
Qed.

(** C10: the answer of GET is a function of the CA row without its
    private key.  Two worlds whose rows for [id] agree on everything but
    the private key get the same response, whatever the session and the
    parser: the payload carries the enumerated fields of [Details] and
    nothing of the key. *)
Theorem GET_independent_of_private_key (forge : string -> option ForgeCertificate)
    (session : Outcome (option Session)) (id : string) (w1 w2 : World) :
  public_part <$> caConfigs (store w1) !! id = public_part <$> caConfigs (store w2) !! id ->
  fst (GET forge session id w1) = fst (GET forge session id w2).
Proof.
  intros Hlow. unfold_route.
  destruct session as [[s|]|m]; simpl; try reflexivity.
  destruct (String.eqb id ""); simpl; [reflexivity|].
  destruct (caConfigs (store w1) !! id) as [ca1|], (caConfigs (store w2) !! id) as [ca2|];
    cbn [fmap option_fmap option_map] in Hlow; try discriminate; [|reflexivity].
  assert (Hpub : public_part ca1 = public_part ca2) by congruence.
  apply (details_public_part forge) in Hpub.
  cbn [fst]. rewrite Hpub. reflexivity.
Qed.

Lemma GET_independent_of_private_key_witness :
  ca_privateKey Examples.testCA = "encrypted-key-material" /\
  ca_privateKey Examples.rekeyedCA = "other-key-material" /\
  fst (GET Examples.forge_rejects (Returned (Some Examples.viewer)) "ca-1"
         Examples.testWorld) =
  fst (GET Examples.forge_rejects (Returned (Some Examples.viewer)) "ca-1"
         Examples.rekeyedWorld).
Proof.
  split; [reflexivity|]. split; [reflexivity|].
  apply (GET_independent_of_private_key Examples.forge_rejects
           (Returned (Some Examples.viewer)) "ca-1"
           Examples.testWorld Examples.rekeyedWorld).
  vm_compute. reflexivity.
Defined.

End CaRouteProperties.

(** ** PEM blocks: the fuel of [match_blocks] is enough *)

Section PemProperties.

Import Pem.

Lemma length_substring_tail (n : nat) (s : string) :
  (n <= String.length s)%nat ->
  String.length (String.substring n (String.length s - n) s) = (String.length s - n)%nat.
Proof.
  revert n. induction s as [|c s IH]; intros [|n] Hn; simpl in *; try lia.
  - f_equal. clear. induction s as [|c' s IH]; simpl; [reflexivity|].
    f_equal. exact IH.
  - apply IH. lia.
Qed.

Lemma prefix_length (p s : string) :
  String.prefix p s = true -> (String.length p <= String.length s)%nat.
Proof.
  revert s. induction p as [|a p IH]; intros [|b s]; simpl; try lia; try discriminate.
  destruct (Ascii.ascii_dec a b); [|discriminate].
  intros H. apply IH in H. lia.
Qed.

Lemma find_marker_unfold (marker s : string) :
  find_marker marker s =
    if String.prefix marker s
    then Some (EmptyString,
               String.substring (String.length marker)
                 (String.length s - String.length marker) s)
    else
      match s with
      | EmptyString => None
      | String c rest =>
          match find_marker marker rest with
          | Some (before, after) => Some (String c before, after)
          | None => None
          end
      end.
Proof. destruct s; reflexivity. Qed.

(** What [find_marker] leaves after the marker is shorter than the text
    by at least the marker. *)
Lemma find_marker_length (marker s before after : string) :
  find_marker marker s = Some (before, after) ->
  (String.length after + String.length marker <= String.length s)%nat.
Proof.
  revert before after. induction s as [|c s IH]; intros before after;
    rewrite find_marker_unfold;
    destruct (String.prefix marker _) eqn:E; try discriminate.
  - intros [= <- <-]. apply prefix_length in E.
    destruct marker; simpl in *; lia.
  - intros H. apply prefix_length in E.
    assert (Hafter : after = String.substring (String.length marker)
              (String.length (String c s) - String.length marker) (String c s))
      by congruence.
    rewrite Hafter, length_substring_tail by exact E. lia.
  - destruct (find_marker marker s) as [[b a]|] eqn:F; [|discriminate].
    intros [= <- <-]. specialize (IH _ _ eq_refl).
    change (String.length (String c s)) with (S (String.length s)). lia.
Qed.

(** Any fuel from the length of the text on gives the same blocks: the
    matching never stops for lack of fuel. *)
Lemma match_blocks_fuel_enough (fuel : nat) (s : string) :
  (String.length s <= fuel)%nat ->
  match_blocks_fuel fuel s = match_blocks s.
Proof.
  unfold match_blocks.
  remember (String.length s) as n eqn:Hn.
  assert (Hle : (String.length s <= n)%nat) by lia. clear Hn.
  revert s fuel Hle.
  induction n as [|n IH]; intros s fuel Hle Hfuel.
  - destruct s; simpl in Hle; [|lia].
    destruct fuel; reflexivity.
  - destruct fuel as [|fuel]; [lia|]. simpl.
    destruct (find_marker BEGIN s) as [[b after_begin]|] eqn:F1; [|reflexivity].
    destruct (find_marker END after_begin) as [[inner rest]|] eqn:F2; [|reflexivity].
    apply find_marker_length in F1, F2.
    change (String.length BEGIN) with 27%nat in F1.
    change (String.length END) with 25%nat in F2.
    f_equal. apply IH; lia.
Qed.

End PemProperties.

(** ** Revocation *)

Section RevocationProperties.

Import RevocationManager.

Lemma parse_reason_name (r : RevocationReason) : parse_reason (reason_name r) = Some r.
Proof. destruct r; reflexivity. Qed.

(** C2: for a certificate whose status is already REVOKED, [revoke] with
    any of the enumerated reasons fails with AlreadyRevokedError and leaves
    the store as it was: no CertificateRevocation row and no AuditLog row
    is added, and the stored rows, the revocation's reason among them, are
    unchanged. *)
Theorem revoke_already_revoked (certificateId : string) (r : RevocationReason)
    (revokedBy : string) (now : Date) (st : Store) (c : Certificate) :
  certificates st !! certificateId = Some c ->
  cert_status c = REVOKED ->
  revoke certificateId (reason_name r) revokedBy now st = (AlreadyRevokedError, st).
Proof.
  intros Hc Hs. unfold revoke. rewrite parse_reason_name, Hc.
  destruct (decide (cert_status c = REVOKED)); [reflexivity | contradiction].
Qed.

(** The test's scenario: revoke with UNSPECIFIED, then again with
    KEY_COMPROMISE. *)
Lemma revoke_already_revoked_witness :
  let st1 := snd (revoke "cert-1" "UNSPECIFIED" "user-1" 1000 Examples.testStore) in
  revoke "cert-1" "KEY_COMPROMISE" "user-1" 2000 st1 = (AlreadyRevokedError, st1) /\
  certificateRevocations st1 =
    [ {| rev_certificateId := "cert-1"; rev_reason := UNSPECIFIED;
         rev_revokedAt := 1000; rev_revokedById := "user-1" |} ].
Proof.
  split; [|reflexivity].
  apply (revoke_already_revoked "cert-1" KEY_COMPROMISE "user-1" 2000
           (snd (revoke "cert-1" "UNSPECIFIED" "user-1" 1000 Examples.testStore))
           (set_status Examples.testCertificate REVOKED)).
  - vm_compute. reflexivity.
  - reflexivity.
Defined.

(** A first revocation of an ACTIVE certificate succeeds and writes its
    three rows. *)
Lemma revoke_active (certificateId reason revokedBy : string) (now : Date)
    (st : Store) (c : Certificate) (r : RevocationReason) :
  parse_reason reason = Some r ->
  certificates st !! certificateId = Some c ->
  cert_status c <> REVOKED ->
  exists row st',
    revoke certificateId reason revokedBy now st = (Revocation row, st') /\
    rev_reason row = r /\
    certificates st' !! certificateId = Some (set_status c REVOKED) /\
    certificateRevocations st' = certificateRevocations st ++ [row] /\
    auditLogs st' = auditLogs st ++ [revoked_entry c reason revokedBy].
Proof.
  intros Hr Hc Hs. unfold revoke. rewrite Hr, Hc.
  destruct (decide (cert_status c = REVOKED)); [contradiction|].
  eexists _, _. split; [reflexivity|]. simpl.
  rewrite lookup_insert_eq. repeat split.
Qed.

(** The second of two revocations fails, whatever its reason, and writes
    nothing. *)
Lemma revoke_twice (certificateId reason1 reason2 by1 by2 : string)
    (now1 now2 : Date) (st st' : Store) (row : CertificateRevocation)
    (r2 : RevocationReason) :
  revoke certificateId reason1 by1 now1 st = (Revocation row, st') ->
  parse_reason reason2 = Some r2 ->
  revoke certificateId reason2 by2 now2 st' = (AlreadyRevokedError, st').
Proof.
  unfold revoke at 1. intros H Hr2.
  repeat (case_match; simplify_eq/=).
  unfold revoke. rewrite Hr2. simpl. rewrite lookup_insert_eq. reflexivity.
Qed.

(** C4: for a certificateId that names no certificate, [revoke] with any of
    the enumerated reasons fails with NotFoundError and leaves the store as
    it was: no CertificateRevocation row is created. *)
Theorem revoke_not_found (certificateId : string) (r : RevocationReason)
    (revokedBy : string) (now : Date) (st : Store) :
  certificates st !! certificateId = None ->
  revoke certificateId (reason_name r) revokedBy now st = (NotFoundError, st).
Proof. intros Hc. unfold revoke. rewrite parse_reason_name, Hc. reflexivity. Qed.

Lemma revoke_not_found_witness :
  revoke "non-existent-id" "UNSPECIFIED" "user-1" 1000 Examples.testStore =
    (NotFoundError, Examples.testStore).
Proof.
  apply (revoke_not_found "non-existent-id" UNSPECIFIED "user-1" 1000
           Examples.testStore).
  vm_compute. reflexivity.
Defined.

(** A reason outside the enumeration is refused before anything else. *)
Lemma revoke_invalid_reason (certificateId reason revokedBy : string)
    (now : Date) (st : Store) :
  parse_reason reason = None ->
  revoke certificateId reason revokedBy now st = (InvalidReasonError, st).
Proof. intros Hr. unfold revoke. rewrite Hr. reflexivity. Qed.

End RevocationProperties.

(** ** Issuance *)

Section IssuanceProperties.

Import CertificateIssuer.

(** C5: a request whose commonName is the empty string fails with a
    ValidationError and leaves the world as it was: no Certificate row
    and no CERTIFICATE_ISSUED AuditLog row is created (and no serial is
    allocated). *)
Theorem issue_empty_commonName (env : Env) (request : Request) (w : World) :
  commonName request = "" ->
  exists violation, issue env request w = (ValidationError violation, w).
Proof.
  intros Hcn. unfold issue, validate. rewrite Hcn. simpl.
  eexists. reflexivity.
Qed.

Lemma issue_empty_commonName_witness :
  exists violation,
    issue Examples.issuer_env (Examples.request_for "") Examples.testWorld =
      (ValidationError violation, Examples.testWorld).
Proof.
  apply (issue_empty_commonName Examples.issuer_env (Examples.request_for "")
           Examples.testWorld).
  reflexivity.
Defined.

(** The same request with a commonName is issued: serial 1 of the CA, one
    Certificate row and one CERTIFICATE_ISSUED row. *)
Example issue_valid_request :
  let r := issue Examples.issuer_env (Examples.request_for "test.example.com")
             Examples.testWorld in
  fst r = Issued (new_certificate Examples.issuer_env
                    (Examples.request_for "test.example.com") 1)
            "-----BEGIN CERTIFICATE-----" /\
  certificates (store (snd r)) !! "cert-2" =
    Some (new_certificate Examples.issuer_env
            (Examples.request_for "test.example.com") 1) /\
  List.map action (auditLogs (store (snd r))) = [CERTIFICATE_ISSUED] /\
  serials (snd r) !! "ca-1" = Some 2%N.
Proof. repeat split; vm_compute; reflexivity. Qed.

End IssuanceProperties.

(** ** Serial numbers under concurrent allocation *)

Section SerialProperties.

Import SerialAllocator.

#[local] Arguments next_of : simpl never.

(** The counters after an allocation for [caId], read for [ca]. *)
Lemma next_of_advanced (caId ca : string) (cs : gmap string N) (n : N) :
  next_of (<[caId := n]> cs) ca = if decide (caId = ca) then n else next_of cs ca.
Proof.
  unfold next_of. rewrite lookup_insert.
  destruct (decide (caId = ca)); reflexivity.
Qed.

Lemma consistent_start (cs : gmap string N) (calls : list (nat * string)) :
  consistent calls (start cs calls).
Proof.
  split; [|split]; simpl.
  - constructor.
  - constructor.
  - reflexivity.
Qed.

Lemma consistent_step (calls : list (nat * string)) (c c' : Config) :
  step c c' -> consistent calls c -> consistent calls c'.
Proof.
  intros Hstep (Hbelow & Hnodup & Hperm).
  destruct Hstep as [cs before after caller caId observed].
  unfold allocated_below in *. simpl in *.
  split; [|split]; simpl.
  - apply Forall_app. split.
    + eapply Forall_impl; [exact Hbelow|].
      intros [[c0 ca] s]; simpl. rewrite next_of_advanced.
      destruct (decide (caId = ca)) as [->|]; lia.
    + constructor; [|constructor]. simpl.
      rewrite next_of_advanced.
      destruct (decide (caId = caId)); [lia | contradiction].
  - rewrite fmap_app. apply NoDup_app. split; [exact Hnodup|]. split.
    + intros k Hk Hin. apply list_elem_of_singleton in Hin. subst k.
      apply list_elem_of_fmap in Hk as ([[c0 ca] s] & Heq & Hx).
      unfold key in Heq. simpl in Heq. injection Heq as <- <-.
      rewrite Forall_forall in Hbelow.
      specialize (Hbelow _ Hx). simpl in Hbelow. lia.
    + apply NoDup_singleton.
  - rewrite <- Hperm, fmap_app. simpl.
    rewrite <- !app_assoc. simpl.
    apply Permutation_app_head.
    apply Permutation_middle.
Qed.

Lemma consistent_steps (calls : list (nat * string)) (cs : gmap string N)
    (final : Config) :
  rtc step (start cs calls) final -> consistent calls final.
Proof.
  intros Hrun.
  apply (rtc_ind_r (R := step) (consistent calls) (start cs calls)); [| |exact Hrun].
  - apply consistent_start.
  - intros c c' _ Hstep IH. exact (consistent_step calls c c' Hstep IH).
Qed.

(** Serving the calls in the order of the list is one schedule. *)
Lemma serve_in_order_steps (c : Config) :
  rtc step c (serve_in_order c (pending c)) /\
  pending (serve_in_order c (pending c)) = [].
Proof.
  destruct c as [cs calls observed]. simpl.
  revert cs observed. induction calls as [|[caller caId] rest IH]; intros cs observed.
  - split; [apply rtc_refl | reflexivity].
  - simpl. destruct (IH (snd (nextSerial caId cs))
                       (observed ++ [(caller, caId, fst (nextSerial caId cs))]))
      as [Hrun Hdone].
    split; [|exact Hdone].
    eapply rtc_l; [|exact Hrun].
    exact (step_serve cs [] rest caller caId observed).
Qed.

(** C8: in every schedule of a set of concurrent calls to [nextSerial],
    from any state of the counters, two different served calls for one CA
    observed different serials; and once no call is pending, every call
    has been served exactly once, so that N calls against one CA have
    yielded N distinct serials. *)
Theorem nextSerial_concurrent_distinct (cs : gmap string N)
    (calls : list (nat * string)) (final : Config) :
  rtc step (start cs calls) final ->
  (forall i j caller1 caller2 caId serial1 serial2,
      served final !! i = Some (caller1, caId, serial1) ->
      served final !! j = Some (caller2, caId, serial2) ->
      i <> j -> serial1 <> serial2) /\
  (pending final = [] ->
   fst <$> served final ≡ₚ calls /\ length (served final) = length calls).
Proof.
  intros Hrun. destruct (consistent_steps calls cs final Hrun) as (_ & Hnodup & Hperm).
  split.
  - intros i j caller1 caller2 caId serial1 serial2 Hi Hj Hij Heq. subst serial2.
    apply Hij.
    eapply (NoDup_lookup _ i j (caId, serial1) Hnodup);
      rewrite list_lookup_fmap; [rewrite Hi | rewrite Hj]; reflexivity.
  - intros Hdone. rewrite Hdone, app_nil_r in Hperm.
    split; [exact Hperm|].
    apply Permutation_length in Hperm. rewrite length_fmap in Hperm. exact Hperm.
Qed.

(** Three concurrent calls for one CA, served in the order 2, 0, 1. *)
Lemma nextSerial_concurrent_distinct_witness :
  let calls := [(0%nat, "ca-1"); (1%nat, "ca-1"); (2%nat, "ca-1")] in
  let final := {| counters := {[ "ca-1" := 4%N ]};
                  pending := [];
                  served := [(2%nat, "ca-1", 1%N); (0%nat, "ca-1", 2%N);
                             (1%nat, "ca-1", 3%N)] |} in
  (forall i j caller1 caller2 caId serial1 serial2,
      served final !! i = Some (caller1, caId, serial1) ->
      served final !! j = Some (caller2, caId, serial2) ->
      i <> j -> serial1 <> serial2) /\
  (pending final = [] ->
   fst <$> served final ≡ₚ calls /\ length (served final) = length calls).
Proof.
  apply (nextSerial_concurrent_distinct ∅
           [(0%nat, "ca-1"); (1%nat, "ca-1"); (2%nat, "ca-1")]).
  eapply rtc_l;
    [exact (step_serve ∅ [(0%nat, "ca-1"); (1%nat, "ca-1")] [] 2 "ca-1" [])|].
  eapply rtc_l;
    [exact (step_serve _ [] [(1%nat, "ca-1")] 0 "ca-1" [(2%nat, "ca-1", 1%N)])|].
  eapply rtc_l;
    [exact (step_serve _ [] [] 1 "ca-1"
              [(2%nat, "ca-1", 1%N); (0%nat, "ca-1", 2%N)])|].
  vm_compute. apply rtc_refl.
Defined.

End SerialProperties.

(** ** Certificate rows across the operations of the system *)

Section CertificateRows.

Lemma kept_trans (c1 c2 c3 : Certificate) : kept c1 c2 -> kept c2 c3 -> kept c1 c3.
Proof.
  unfold kept. intros [->| ->] [->| ->]; auto.
Qed.

Lemma kept_caId (c c' : Certificate) : kept c c' -> cert_caId c' = cert_caId c.
Proof. intros [->| ->]; reflexivity. Qed.

Lemma GET_world (forge : string -> option CaRoute.ForgeCertificate)
    (session : Outcome (option Session)) (id : string) (w : World) :
  snd (CaRoute.GET forge session id w) = w.
Proof.
  unfold CaRoute.GET, CaRoute.GET_try, try_catch, bind, await, ret, query.
  repeat (case_match; simplify_eq/=); reflexivity.
Qed.

Lemma revoke_keeps (certificateId reason revokedBy : string) (now : Date)
    (st : Store) (certId : string) (c : Certificate) :
  certificates st !! certId = Some c ->
  exists c',
    certificates (snd (RevocationManager.revoke certificateId reason revokedBy now st))
      !! certId = Some c' /\ kept c c'.
Proof.
  intros Hc. unfold RevocationManager.revoke, kept.
  repeat (case_match; simplify_eq/=); eauto.
  destruct (decide (certificateId = certId)) as [->|Hne].
  - rewrite lookup_insert_eq. simplify_eq. eauto.
  - rewrite lookup_insert_ne by exact Hne. eauto.
Qed.

Lemma issue_keeps (env : CertificateIssuer.Env) (request : CertificateIssuer.Request)
    (w : World) (certId : string) (c : Certificate) :
  certificates (store w) !! certId = Some c ->
  certificates (store (snd (CertificateIssuer.issue env request w))) !! certId = Some c.
Proof.
  intros Hc. unfold CertificateIssuer.issue.
  repeat (case_match; simplify_eq/=); try exact Hc.
  rewrite lookup_insert_ne; [exact Hc | congruence].
Qed.

Lemma perform_keeps (op : Operation) (w : World) (certId : string) (c : Certificate) :
  certificates (store w) !! certId = Some c ->
  is_ca_deletion (cert_caId c) op = false ->
  exists c', certificates (store (perform op w)) !! certId = Some c' /\ kept c c'.
Proof.
  intros Hc Hop. destruct op as [env|forge session id|env id|cid reason revokedBy now|env request];
    simpl.
  - destruct (POST_tables env w) as (-> & _). exists c. split; [exact Hc | left; reflexivity].
  - rewrite GET_world. exists c. split; [exact Hc | left; reflexivity].
  - destruct (DELETE_certificates env id w) as [-> | (session & Hs & Hadmin & ->)].
    + exists c. split; [exact Hc | left; reflexivity].
    + simpl in Hop. rewrite Hs, Hadmin in Hop. simpl in Hop.
      exists c. split; [|left; reflexivity].
      apply map_lookup_filter_Some. split; [exact Hc|]. simpl.
      intros Heq. rewrite Heq, String.eqb_refl in Hop. discriminate.
  - apply revoke_keeps. exact Hc.
  - exists c. split; [apply issue_keeps; exact Hc | left; reflexivity].
Qed.

Lemma run_app (ops1 ops2 : list Operation) (w : World) :
  run (ops1 ++ ops2) w = run ops2 (run ops1 w).
Proof.
  revert w. induction ops1 as [|op ops1 IH]; intros w; simpl; [reflexivity | apply IH].
Qed.

Lemma run_keeps (ops : list Operation) (w : World) (certId : string) (c : Certificate) :
  certificates (store w) !! certId = Some c ->
  Forall (fun op => is_ca_deletion (cert_caId c) op = false) ops ->
  exists c', certificates (store (run ops w)) !! certId = Some c' /\ kept c c'.
Proof.
  intros Hc Hops. revert w c Hc Hops.
  induction ops as [|op ops IH]; intros w c Hc Hops; simpl.
  - exists c. split; [exact Hc | left; reflexivity].
  - apply Forall_cons in Hops as [Hop Hops].
    destruct (perform_keeps op w certId c Hc Hop) as (c1 & Hc1 & Hk1).
    destruct (IH (perform op w) c1 Hc1) as (c2 & Hc2 & Hk2).
    + rewrite (kept_caId c c1 Hk1). exact Hops.
    + exists c2. split; [exact Hc2 | exact (kept_trans c c1 c2 Hk1 Hk2)].
Qed.

(** C3, as the system has it: Certificate rows are deleted by one operation
    only, an administrator's deletion of their CA.  A row that is in the
    table at any point of a sequence of operations, from any world, is
    still there under its id after the rest of the sequence, with its
    columns as they were but, at most, its status set to REVOKED, unless
    the rest contains such a deletion of the row's CA. *)
Theorem certificates_survive (before rest : list Operation) (w : World)
    (certId : string) (c : Certificate) :
  certificates (store (run before w)) !! certId = Some c ->
  Forall (fun op => is_ca_deletion (cert_caId c) op = false) rest ->
  exists c',
    certificates (store (run (before ++ rest) w)) !! certId = Some c' /\ kept c c'.
Proof.
  intros Hc Hrest. rewrite run_app. exact (run_keeps rest _ certId c Hc Hrest).
Qed.

(** A certificate is issued, then revoked; a CRL is generated, an operator
    tries to delete the CA, an administrator deletes another CA. *)
Lemma certificates_survive_witness :
  let before :=
    [ Issue Examples.issuer_env (Examples.request_for "test.example.com") ] in
  let rest :=
    [ Revoke "cert-2" "KEY_COMPROMISE" "user-1" 2000;
      GenerateCrl (Examples.crl_env (JObj [("caId", JStr "ca-1")]) (Returned "crl"));
      DeleteCa (Examples.delete_env Examples.operator) "ca-1";
      DeleteCa (Examples.delete_env Examples.administrator) "ca-2" ] in
  exists c',
    certificates (store (run (before ++ rest) Examples.testWorld)) !! "cert-2" = Some c' /\
    kept (CertificateIssuer.new_certificate Examples.issuer_env
            (Examples.request_for "test.example.com") 1) c'.
Proof.
  apply (certificates_survive
           [ Issue Examples.issuer_env (Examples.request_for "test.example.com") ]
           [ Revoke "cert-2" "KEY_COMPROMISE" "user-1" 2000;
             GenerateCrl (Examples.crl_env (JObj [("caId", JStr "ca-1")]) (Returned "crl"));
             DeleteCa (Examples.delete_env Examples.operator) "ca-1";
             DeleteCa (Examples.delete_env Examples.administrator) "ca-2" ]
           Examples.testWorld "cert-2"
           (CertificateIssuer.new_certificate Examples.issuer_env
              (Examples.request_for "test.example.com") 1)).
  - vm_compute. reflexivity.
  - repeat constructor.
Defined.

End CertificateRows.

(** * Further properties of the handlers *)

Set Warnings "-clear-no-such-hyp".

(** ** POST /api/crl/generate *)

Section CrlGenerateBehaviour.

Import CrlGenerate CrlGenerateTerms.

Ltac unfold_post :=
  unfold POST, POST_catch, POST_try, log_failure, generate, destructure,
    call_generateCRL, call_generateDeltaCRL, CAService_call, AuditService_log,
    try_catch, bind, await, ret, throw, write, query in *.

Ltac settle_made :=
  repeat match goal with
         | H : ?l = ?l ++ _ |- _ => apply app_self_nil in H
         | H : ?l ++ _ = ?l ++ _ |- _ => apply app_inv_head in H
         end;
  simplify_eq/=.

(** X1: CAService is called for permitted callers only.  Whenever a run
    makes a call into CAService, the session was resolved and its
    permissions include 'crl:manage'. *)
Theorem POST_calls_need_permission (env : Env) (w : World) :
  serviceCalls (snd (POST env w)) = serviceCalls w \/
  exists session perms,
    getApiSession env = Returned (Some session) /\
    permissions (user session) = Some perms /\
    includes perms "crl:manage" = true.
Proof.
  unfold_post.
  destruct (getApiSession env) as [[session|]|m]; simpl;
    [destruct (permissions (user session)) as [perms|] eqn:Hp; simpl| |].
  - destruct (includes perms "crl:manage") eqn:Hi; simpl.
    + right. exists session, perms. repeat split; assumption.
    + left. reflexivity.
  - left. repeat (case_match; simplify_eq/=); reflexivity.
  - left. reflexivity.
  - left. repeat (case_match; simplify_eq/=); reflexivity.
Qed.

(** The three ways a run can go: refused for want of a session, refused
    for want of the permission, or neither, and then it answers 200 or 500. *)
Lemma POST_cases (env : Env) (w : World) :
  (getApiSession env = Returned None /\
   POST env w = (json (Error "Unauthorized") 401, w)) \/
  (exists session perms,
     getApiSession env = Returned (Some session) /\
     permissions (user session) = Some perms /\
     includes perms "crl:manage" = false /\
     POST env w = (json (Error "Insufficient permissions") 403, w)) \/
  (getApiSession env <> Returned None /\
   (forall session perms,
      getApiSession env = Returned (Some session) ->
      permissions (user session) = Some perms ->
      includes perms "crl:manage" = true) /\
   (status (fst (POST env w)) = 200 \/ status (fst (POST env w)) = 500)).
Proof.
  unfold_post.
  destruct (getApiSession env) as [[session|]|m] eqn:Hs; simpl.
  - destruct (permissions (user session)) as [perms|] eqn:Hp; simpl.
    + destruct (includes perms "crl:manage") eqn:Hi; simpl.
      * right. right. split; [discriminate|]. split.
        { intros s p [= <-] Hp'. congruence. }
        repeat (case_match; simplify_eq/=); auto.
      * right. left. exists session, perms. repeat split; assumption.
    + right. right. split; [discriminate|]. split.
      { intros s p [= <-] Hp'. congruence. }
      repeat (case_match; simplify_eq/=); auto.
  - left. split; reflexivity.
  - right. right. split; [discriminate|]. split.
    { intros s p [=]. }
    repeat (case_match; simplify_eq/=); auto.
Qed.

(** X2: the refusals.  The answer is 401 exactly when no session is
    resolved, and 403 exactly when the session's permissions are an array
    without 'crl:manage'; a refused run leaves the world as it was.  Every
    answer is 200, 401, 403 or 500. *)
Theorem POST_refusals (env : Env) (w : World) :
  (status (fst (POST env w)) = 401 <-> getApiSession env = Returned None) /\
  (status (fst (POST env w)) = 403 <->
   exists session perms,
     getApiSession env = Returned (Some session) /\
     permissions (user session) = Some perms /\
     includes perms "crl:manage" = false) /\
  (status (fst (POST env w)) = 401 \/ status (fst (POST env w)) = 403 ->
   snd (POST env w) = w) /\
  (status (fst (POST env w)) = 200 \/ status (fst (POST env w)) = 401 \/
   status (fst (POST env w)) = 403 \/ status (fst (POST env w)) = 500).
Proof.
  destruct (POST_cases env w)
    as [(Hs & ->) | [(session & perms & Hs & Hp & Hi & ->) | (Hs & Hperm & Hst)]];
    cbn [fst snd status json].
  - repeat split; try discriminate; auto.
    intros (s & p & Hs' & _). congruence.
  - repeat split; try discriminate; auto.
    + congruence.
    + intros _. exists session, perms. auto.
  - repeat split.
    + intros H. destruct Hst as [H'|H']; rewrite H' in H; discriminate.
    + intros H. contradiction.
    + intros H. destruct Hst as [H'|H']; rewrite H' in H; discriminate.
    + intros (s & p & Hs' & Hp' & Hi'). rewrite (Hperm s p Hs' Hp') in Hi'. discriminate.
    + intros [H|H]; destruct Hst as [H'|H']; rewrite H' in H; discriminate.
    + destruct Hst as [H'|H']; rewrite H'; auto.
Qed.

Lemma POST_from_generation (env : Env) (w : World) (session : Session)
    (type : JSON) (caId : JSValue) :
  reaches_generation env session type caId ->
  POST env w =
    match selected env type caId with
    | Returned crl =>
        match audit_fails env (success_entry env session type (description_of type)) with
        | None =>
            (json (Success (description_of type) crl type) 200,
             set_store (CAService_call env (selected_call type caId) w)
               (set_auditLogs (store (CAService_call env (selected_call type caId) w))
                  (auditLogs (store (CAService_call env (selected_call type caId) w)) ++
                   [success_entry env session type (description_of type)])))
        | Some message =>
            POST_catch env message (CAService_call env (selected_call type caId) w)
        end
    | Thrown message =>
        POST_catch env message (CAService_call env (selected_call type caId) w)
    end.
Proof.
  intros (Hs & (perms & Hp & Hi) & (body & Hb & Hd)).
  unfold selected, selected_call, description_of.
  unfold POST, POST_try, generate, call_generateCRL, call_generateDeltaCRL,
    AuditService_log, try_catch, bind, await, ret, throw, write.
  rewrite Hs, Hp, Hi, Hb, Hd. cbn [negb fst snd].
  destruct (strict_eq_str type "delta");
    [destruct (CAService_generateDeltaCRL env caId)
    |destruct (CAService_generateCRL env caId)];
    cbn [fst snd]; try reflexivity;
    destruct (audit_fails env _); reflexivity.
Qed.

(** X3: success, exactly.  When the request reaches the generator, the
    chosen entry point of CAService resolves to [crl] and the audit row is
    written, the answer is 200 with that [crl], the [type] of the body
    (or "full") and the matching message, the one call is added to the
    record, and the AuditLog table ends with the handler's row, after the
    rows that were there and those the service wrote during the call; and
    an answer of 200 is given in no other case. *)
Theorem POST_success (env : Env) (w : World) :
  (forall session type caId crl,
      reaches_generation env session type caId ->
      selected env type caId = Returned crl ->
      audit_fails env (success_entry env session type (description_of type)) = None ->
      fst (POST env w) = json (Success (description_of type) crl type) 200 /\
      serviceCalls (snd (POST env w)) = serviceCalls w ++ [selected_call type caId] /\
      auditLogs (store (snd (POST env w))) =
        auditLogs (store w) ++
        written_auditLogs (CAService_writes env (selected_call type caId) (store w)) ++
        [success_entry env session type (description_of type)]) /\
  (status (fst (POST env w)) = 200 ->
   exists session type caId crl,
     reaches_generation env session type caId /\
     selected env type caId = Returned crl /\
     audit_fails env (success_entry env session type (description_of type)) = None).
Proof.
  split.
  - intros session type caId crl Hreach Hsel Haudit.
    rewrite (POST_from_generation env w session type caId Hreach), Hsel, Haudit.
    cbn. rewrite <- app_assoc. auto.
  - unfold reaches_generation, selected, description_of. unfold_post.
    destruct (getApiSession env) as [[session|]|m]; simpl; try discriminate.
    destruct (permissions (user session)) as [perms|] eqn:Hp; simpl; try discriminate.
    destruct (includes perms "crl:manage") eqn:Hi; simpl; try discriminate.
    destruct (request_json env) as [body|m]; simpl; try discriminate.
    destruct (get_prop "type" body) as [type|m] eqn:Ht; simpl; try discriminate.
    destruct (get_prop "caId" body) as [caId|m] eqn:Hc; simpl; try discriminate.
    intros Hst.
    exists session, (default (JStr "full") type), caId.
    match goal with
    | |- exists _, ?R /\ _ => assert (Hreach : R)
    end.
    { split; [reflexivity|]. split; [exists perms; auto|].
      exists body. rewrite Ht, Hc. auto. }
    destruct (strict_eq_str (default (JStr "full") type) "delta").
    + destruct (CAService_generateDeltaCRL env caId) as [crl|m];
        simpl in Hst; [|discriminate].
      exists crl. split; [exact Hreach|]. split; [reflexivity|].
      destruct (audit_fails env _); [discriminate | reflexivity].
    + destruct (CAService_generateCRL env caId) as [crl|m];
        simpl in Hst; [|discriminate].
      exists crl. split; [exact Hreach|]. split; [reflexivity|].
      destruct (audit_fails env _); [discriminate | reflexivity].
Qed.

(** X4: generated, yet reported as failed.  When the chosen entry point of
    CAService has resolved but writing the audit row throws, the answer is
    500 with the audit error as its details and without the CRL, although
    the call into CAService was made. *)
Theorem POST_generated_but_failed (env : Env) (w : World) (session : Session)
    (type : JSON) (caId : JSValue) (crl message : string) :
  reaches_generation env session type caId ->
  selected env type caId = Returned crl ->
  audit_fails env (success_entry env session type (description_of type)) = Some message ->
  fst (POST env w) = json (Failure "Failed to generate CRL" message) 500 /\
  serviceCalls (snd (POST env w)) = serviceCalls w ++ [selected_call type caId].
Proof.
  intros Hreach Hsel Haudit.
  rewrite (POST_from_generation env w session type caId Hreach), Hsel, Haudit.
  split; [reflexivity|].
  unfold POST_catch, log_failure, AuditService_log, try_catch, bind, await, ret,
    throw, write.
  repeat (case_match; simplify_eq/=); reflexivity.
Qed.

Lemma POST_generated_but_failed_witness :
  let env := Examples.crl_env_audit_down (JObj [("caId", JStr "ca-1")]) (Returned "crl") in
  fst (POST env Examples.testWorld) =
    json (Failure "Failed to generate CRL" "audit store unavailable") 500 /\
  serviceCalls (snd (POST env Examples.testWorld)) =
    serviceCalls Examples.testWorld ++ [selected_call (JStr "full") (Some (JStr "ca-1"))].
Proof.
  apply (POST_generated_but_failed
           (Examples.crl_env_audit_down (JObj [("caId", JStr "ca-1")]) (Returned "crl"))
           Examples.testWorld Examples.operator (JStr "full") (Some (JStr "ca-1"))
           "crl" "audit store unavailable").
  - split; [reflexivity|]. split.
    + exists ["crl:manage"]. split; reflexivity.
    + exists (JObj [("caId", JStr "ca-1")]). split; reflexivity.
  - reflexivity.
  - reflexivity.
Defined.

(** X5: the error of CAService reaches the client.  When the chosen entry
    point throws, the answer is 500 and its details are the thrown message,
    as it is. *)
Theorem POST_service_error_exposed (env : Env) (w : World) (session : Session)
    (type : JSON) (caId : JSValue) (message : string) :
  reaches_generation env session type caId ->
  selected env type caId = Thrown message ->
  fst (POST env w) = json (Failure "Failed to generate CRL" message) 500.
Proof.
  intros Hreach Hsel.
  rewrite (POST_from_generation env w session type caId Hreach), Hsel.
  reflexivity.
Qed.

Lemma POST_service_error_exposed_witness :
  fst (POST (Examples.crl_env (JObj [("type", JStr "delta")])
               (Thrown "No full CRL found for CA undefined"))
         Examples.testWorld) =
    json (Failure "Failed to generate CRL" "No full CRL found for CA undefined") 500.
Proof.
  apply (POST_service_error_exposed
           (Examples.crl_env (JObj [("type", JStr "delta")])
              (Thrown "No full CRL found for CA undefined"))
           Examples.testWorld Examples.operator (JStr "delta") None).
  - split; [reflexivity|]. split.
    + exists ["crl:manage"]. split; reflexivity.
    + exists (JObj [("type", JStr "delta")]). split; reflexivity.
  - reflexivity.
Defined.

(** X6: a body that cannot be read.  For a permitted caller whose body
    fails to parse, or parses to [null], the answer is 500 (not a 400) and
    no call into CAService is made. *)
Theorem POST_unreadable_body (env : Env) (w : World) (session : Session)
    (perms : list string) :
  getApiSession env = Returned (Some session) ->
  permissions (user session) = Some perms ->
  includes perms "crl:manage" = true ->
  (exists message, request_json env = Thrown message) \/
  request_json env = Returned JNull ->
  status (fst (POST env w)) = 500 /\
  serviceCalls (snd (POST env w)) = serviceCalls w.
Proof.
  intros Hs Hp Hi Hbody. unfold_post. rewrite Hs, Hp, Hi.
  destruct Hbody as [(message & ->) | ->]; simpl;
    (split; [reflexivity|]);
    repeat (case_match; simplify_eq/=); reflexivity.
Qed.

Lemma POST_unreadable_body_witness :
  status (fst (POST Examples.crl_env_bad_body Examples.testWorld)) = 500 /\
  serviceCalls (snd (POST Examples.crl_env_bad_body Examples.testWorld)) =
    serviceCalls Examples.testWorld.
Proof.
  apply (POST_unreadable_body Examples.crl_env_bad_body Examples.testWorld
           Examples.operator ["crl:manage"]).
  - reflexivity.
  - reflexivity.
  - reflexivity.
  - left. exists "Unexpected token i in JSON at position 0". reflexivity.
Defined.

(** X7: the handler's own writes.  A run leaves the database as CAService
    left it during the call the run made (as the run found it, when it made
    no call) but for at most one row, appended to the AuditLog table; and
    it allocates no serial. *)
Theorem POST_only_appends_audit (env : Env) (w : World) :
  exists rows : list AuditLog,
    store (snd (POST env w)) =
      set_auditLogs (service_store env w) (auditLogs (service_store env w) ++ rows) /\
    (length rows <= 1)%nat /\
    serials (snd (POST env w)) = serials w.
Proof.
  assert (Hid : forall st, st = set_auditLogs st (auditLogs st ++ [])).
  { intros st. rewrite app_nil_r. destruct st. reflexivity. }
  unfold service_store.
  destruct (POST_call_made env w) as (calls & Hcalls & -> & _).
  revert Hcalls. unfold_post.
  repeat (case_match; simplify_eq/=); intros Hcalls; settle_made;
    first [ exists []; simpl; split; [apply Hid | split; [lia | reflexivity]]
          | eexists [_]; simpl; split; [reflexivity | split; [lia | reflexivity]] ].
Qed.

End CrlGenerateBehaviour.

(** ** GET /api/ca/[id] *)

Section CaGetBehaviour.

Import CaRoute.

(** X8: the answers of GET, the lookup of the row taken to succeed.  It
    never writes.  It answers 401 exactly when no session is resolved, 400
    exactly when there is a session and the id is empty, 404 exactly when
    there is a session, an id and no such CA, 200 with the details of the
    row exactly when there is one, and 500 when resolving the session
    throws.  The role of the caller plays no part. *)
Theorem GET_answers (forge : string -> option ForgeCertificate)
    (session : Outcome (option Session)) (id : string) (w : World) :
  snd (GET forge session id w) = w /\
  (status (fst (GET forge session id w)) = 401 <-> session = Returned None) /\
  (status (fst (GET forge session id w)) = 400 <->
   (exists s, session = Returned (Some s)) /\ id = "") /\
  (status (fst (GET forge session id w)) = 404 <->
   (exists s, session = Returned (Some s)) /\ id <> "" /\
   caConfigs (store w) !! id = None) /\
  (status (fst (GET forge session id w)) = 200 <->
   (exists s, session = Returned (Some s)) /\ id <> "" /\
   exists ca, caConfigs (store w) !! id = Some ca /\
              payload (fst (GET forge session id w)) = GetDetails (details forge ca)) /\
  ((exists m, session = Thrown m) -> status (fst (GET forge session id w)) = 500).
Proof.
  unfold GET, GET_try, try_catch, bind, await, ret, query.
  destruct session as [[s|]|m]; cbn [fst snd].
  - destruct (String.eqb_spec id "") as [->|Hid]; cbn [fst snd].
    + cbn [status payload json]. naive_solver.
    + destruct (caConfigs (store w) !! id) as [ca|] eqn:Hca;
        cbn [fst snd status payload json]; naive_solver.
  - cbn [status payload json]. naive_solver.
  - cbn [status payload json]. naive_solver.
Qed.

(** X9: what [selfSigned] says.  For a CA certificate that parses, the
    answer's [selfSigned] is true exactly when the subject CN and the
    issuer CN are the same non-empty string; it is null, not false, as soon
    as one of the two is missing or empty; and it is false exactly when
    both are there and differ. *)
Theorem selfSigned_meaning (forge : string -> option ForgeCertificate)
    (ca : CAConfig) (pem : string) (cert : ForgeCertificate) :
  ca_certificate ca = Some pem ->
  pem <> "" ->
  forge pem = Some cert ->
  exists info,
    certificateInfo (details forge ca) = Some info /\
    (selfSigned info = Some true <->
     exists cn, cn <> "" /\ subject_CN cert = Some cn /\ issuer_CN cert = Some cn) /\
    (selfSigned info = None <->
     truthy (subject_CN cert) = false \/ truthy (issuer_CN cert) = false) /\
    (selfSigned info = Some false <->
     exists s i, s <> "" /\ i <> "" /\ s <> i /\
                 subject_CN cert = Some s /\ issuer_CN cert = Some i).
Proof.
  intros Hpem Hne Hforge. cbn [certificateInfo details].
  unfold derive_certInfo. rewrite Hpem, (truthy_Some pem Hne).
  change (default "" (Some pem)) with pem. rewrite Hforge. eexists. split; [reflexivity|]. cbn [selfSigned].
  unfold or_null, truthy.
  destruct (subject_CN cert) as [s|], (issuer_CN cert) as [i|]; cbn [negb];
    try destruct (String.eqb_spec s ""); try destruct (String.eqb_spec i "");
    cbn [negb]; try destruct (String.eqb_spec s i); try naive_solver.
  split; [|split].
  - split; [discriminate|]. intros (cn & _ & [= <-] & [= <-]). contradiction.
  - split; [discriminate|]. intros [H|H]; discriminate.
  - split; [|reflexivity]. intros _. exists s, i. auto.
Qed.

Lemma selfSigned_meaning_witness :
  exists info,
    certificateInfo (details Examples.forge_accepts_good Examples.certifiedCA) = Some info /\
    (selfSigned info = Some true <->
     exists cn, cn <> "" /\ Some "intermediate.example.com" = Some cn /\
                Some "root.example.com" = Some cn) /\
    (selfSigned info = None <->
     truthy (Some "intermediate.example.com") = false \/
     truthy (Some "root.example.com") = false) /\
    (selfSigned info = Some false <->
     exists s i, s <> "" /\ i <> "" /\ s <> i /\
                 Some "intermediate.example.com" = Some s /\
                 Some "root.example.com" = Some i).
Proof.
  apply (selfSigned_meaning Examples.forge_accepts_good Examples.certifiedCA
           Examples.good_block
           {| subject_CN := Some "intermediate.example.com";
              issuer_CN := Some "root.example.com";
              validity_notBefore := 0;
              validity_notAfter := 315360000000;
              publicKey_type := None |}).
  - reflexivity.
  - discriminate.
  - reflexivity.
Defined.

Lemma length_omap_le {A B : Type} (f : A -> option B) (l : list A) :
  (length (omap f l) <= length l)%nat /\
  (length (omap f l) = length l <-> Forall (fun x => is_Some (f x)) l).
Proof.
  induction l as [|x l [IHle IHeq]]; simpl.
  - split; [lia|]. split; [constructor | reflexivity].
  - destruct (f x) as [y|] eqn:Hfx; simpl;
      change (list_omap A B f l) with (omap f l).
    + split; [lia|]. rewrite Forall_cons. split.
      * intros H. split; [rewrite Hfx; eauto | apply IHeq; lia].
      * intros [_ H]. f_equal. apply IHeq. exact H.
    + split; [lia|]. rewrite Forall_cons. split.
      * intros H. lia.
      * intros [[y Hy] _]. congruence.
Qed.

(** X10: the count of a chain.  For a stored chain, the answer's [count]
    is the number of its [entries]; it is at most the number of PEM blocks
    in the chain, and equal to it exactly when every block parses. *)
Theorem chain_count (forge : string -> option ForgeCertificate) (ca : CAConfig)
    (chain : string) :
  ca_certificateChain ca = Some chain ->
  chain <> "" ->
  exists info,
    certificateChainInfo (details forge ca) = Some info /\
    count info = length (entries info) /\
    (count info <= length (Pem.match_blocks chain))%nat /\
    (count info = length (Pem.match_blocks chain) <->
     Forall (fun b => is_Some (forge b)) (Pem.match_blocks chain)).
Proof.
  intros Hchain Hne. cbn [certificateChainInfo details].
  unfold derive_chainInfo. rewrite Hchain, (truthy_Some chain Hne).
  change (default "" (Some chain)) with chain.
  eexists. split; [reflexivity|]. cbn [count entries].
  split; [reflexivity|].
  destruct (length_omap_le (parse_block forge) (Pem.match_blocks chain)) as [Hle Heq].
  split; [exact Hle|].
  rewrite Heq. apply Forall_iff. intros b. unfold parse_block.
  destruct (forge b); split; intros [x Hx]; try discriminate; eauto.
Qed.

Lemma chain_count_witness :
  exists info,
    certificateChainInfo (details Examples.forge_accepts_good Examples.chainCA) = Some info /\
    count info = length (entries info) /\
    (count info <= length (Pem.match_blocks
                             (default "" (ca_certificateChain Examples.chainCA))))%nat /\
    (count info = length (Pem.match_blocks
                            (default "" (ca_certificateChain Examples.chainCA))) <->
     Forall (fun b => is_Some (Examples.forge_accepts_good b))
       (Pem.match_blocks (default "" (ca_certificateChain Examples.chainCA)))).
Proof.
  apply (chain_count Examples.forge_accepts_good Examples.chainCA
           (default "" (ca_certificateChain Examples.chainCA))).
  - reflexivity.
  - discriminate.
Defined.

Lemma or_null_not_empty (o : option string) : or_null o <> Some "".
Proof.
  unfold or_null, truthy. destruct o as [s|]; [|discriminate].
  destruct (String.eqb_spec s ""); cbn [negb]; congruence.
Qed.

(** X11: names are never empty.  Every name in the answer, the subject and
    issuer CN and the key type of the certificate, the CN of every chain
    entry and the root CN, is null or a non-empty string: an empty or
    missing field reads as null. *)
Theorem names_null_or_nonempty (forge : string -> option ForgeCertificate)
    (ca : CAConfig) :
  (forall info, certificateInfo (details forge ca) = Some info ->
     subjectCN info <> Some "" /\ issuerCN info <> Some "" /\
     publicKeyType info <> Some "") /\
  (forall info, certificateChainInfo (details forge ca) = Some info ->
     rootCN info <> Some "" /\
     Forall (fun e => entry_subjectCN e <> Some "" /\ entry_issuerCN e <> Some "")
       (entries info)).
Proof.
  cbn [certificateInfo certificateChainInfo details]. split.
  - intros info. unfold derive_certInfo.
    destruct (truthy (ca_certificate ca)); [|discriminate].
    destruct (forge _) as [cert|]; [|discriminate].
    intros [= <-]. cbn [subjectCN issuerCN publicKeyType].
    repeat split; apply or_null_not_empty.
  - intros info. unfold derive_chainInfo.
    destruct (truthy (ca_certificateChain ca)); [|discriminate].
    intros [= <-]. cbn [rootCN entries]. split; [apply or_null_not_empty|].
    apply Forall_forall. intros e He.
    apply list_elem_of_omap in He as (b & _ & Hb).
    unfold parse_block in Hb. destruct (forge b) as [c|]; [|discriminate].
    injection Hb as <-. cbn [entry_subjectCN entry_issuerCN].
    split; apply or_null_not_empty.
Qed.

End CaGetBehaviour.

(** ** The PEM blocks of a chain *)

Section PemBehaviour.

Import Pem PemTerms.
Import Stdlib.Strings.Ascii.

Lemma append_cons (x : ascii) (a b : string) : String x a +:+ b = String x (a +:+ b).
Proof. reflexivity. Qed.

Lemma append_assoc (a b c : string) : (a +:+ b) +:+ c = a +:+ b +:+ c.
Proof.
  induction a as [|x a' IH]; [reflexivity|].
  rewrite !append_cons, IH. reflexivity.
Qed.

Lemma append_cancel_l (a b c : string) : a +:+ b = a +:+ c -> b = c.
Proof.
  induction a as [|x a' IH]; [auto|].
  rewrite !append_cons. intros [= H]. auto.
Qed.

Lemma substring_all (s : string) : String.substring 0 (String.length s) s = s.
Proof. induction s as [|c s IH]; simpl; [reflexivity | rewrite IH; reflexivity]. Qed.

Lemma prefix_split (m s : string) :
  String.prefix m s = true ->
  s = m +:+ String.substring (String.length m) (String.length s - String.length m) s.
Proof.
  revert s. induction m as [|a m IH]; intros s H.
  - simpl. rewrite Nat.sub_0_r, substring_all. reflexivity.
  - destruct s as [|b s]; simpl in H; [discriminate|].
    destruct (Ascii.ascii_dec a b) as [->|]; [|discriminate].
    rewrite append_cons. simpl. f_equal. apply IH. exact H.
Qed.

Lemma prefix_append (m x y : string) :
  String.prefix m x = true -> String.prefix m (x +:+ y) = true.
Proof.
  revert x. induction m as [|a m IH]; intros x H.
  - destruct (x +:+ y); reflexivity.
  - destruct x as [|b x]; simpl in H; [discriminate|].
    rewrite append_cons. simpl.
    destruct (Ascii.ascii_dec a b); [apply IH; exact H | discriminate].
Qed.

Lemma prefix_self_append (m y : string) : String.prefix m (m +:+ y) = true.
Proof.
  induction m as [|a m IH].
  - destruct y; reflexivity.
  - rewrite append_cons. simpl.
    destruct (Ascii.ascii_dec a a); [exact IH | contradiction].
Qed.

Lemma prefix_mismatch (a b : ascii) (m s : string) :
  a <> b -> String.prefix (String a m) (String b s) = false.
Proof.
  intros Hab.
  change (String.prefix (String a m) (String b s))
    with (if Ascii.ascii_dec a b then String.prefix m s else false).
  destruct (Ascii.ascii_dec a b); [contradiction | reflexivity].
Qed.

Lemma not_dash (c : ascii) : negb (Ascii.eqb c "-"%char) = true -> "-"%char <> c.
Proof.
  intros H Heq. subst c. discriminate.
Qed.

(** [find_marker] splits the text around the marker. *)
Lemma find_marker_split (marker s before after : string) :
  find_marker marker s = Some (before, after) ->
  s = before +:+ marker +:+ after.
Proof.
  revert before after. induction s as [|c s IH]; intros before after;
    rewrite find_marker_unfold;
    destruct (String.prefix marker _) eqn:E; try discriminate.
  - intros [= <- <-]. apply prefix_split. exact E.
  - intros H.
    assert (Hb : before = EmptyString) by congruence.
    assert (Ha : after = String.substring (String.length marker)
              (String.length (String c s) - String.length marker) (String c s))
      by congruence.
    rewrite Hb, Ha. apply prefix_split. exact E.
  - destruct (find_marker marker s) as [[b a]|] eqn:F; [|discriminate].
    intros [= <- <-]. rewrite append_cons. f_equal. apply IH. reflexivity.
Qed.

(** and at its first occurrence: there is none in the text before it. *)
Lemma find_marker_first (marker s before after : string) :
  marker <> EmptyString ->
  find_marker marker s = Some (before, after) ->
  find_marker marker before = None.
Proof.
  intros Hm. revert before after. induction s as [|c s IH]; intros before after;
    rewrite find_marker_unfold;
    destruct (String.prefix marker _) eqn:E; try discriminate.
  - intros [= <- <-]. destruct marker; [contradiction | reflexivity].
  - intros H. assert (Hb : before = EmptyString) by congruence. rewrite Hb.
    destruct marker; [contradiction | reflexivity].
  - destruct (find_marker marker s) as [[b a]|] eqn:F; [|discriminate].
    intros [= <- <-]. rewrite find_marker_unfold.
    destruct (String.prefix marker (String c b)) eqn:E'.
    + apply (prefix_append _ _ (marker +:+ a)) in E'.
      apply find_marker_split in F. rewrite append_cons, <- F in E'. congruence.
    + rewrite (IH b a eq_refl). reflexivity.
Qed.

Lemma blocks_fuel_pieces (fuel : nat) (s : string) :
  exists gaps tail,
    length gaps = length (match_blocks_fuel fuel s) /\
    s = interleave gaps (match_blocks_fuel fuel s) tail /\
    Forall (fun b => exists body, b = block body /\ find_marker END body = None)
      (match_blocks_fuel fuel s).
Proof.
  revert s. induction fuel as [|fuel IH]; intros s; simpl.
  - exists [], s. repeat split. constructor.
  - destruct (find_marker BEGIN s) as [[gap after_begin]|] eqn:F1;
      [|exists [], s; repeat split; constructor].
    destruct (find_marker END after_begin) as [[body rest]|] eqn:F2;
      [|exists [], s; repeat split; constructor].
    destruct (IH rest) as (gaps & tail & Hlen & Hrest & Hall).
    exists (gap :: gaps), tail. split; [simpl; congruence|]. split.
    + simpl. rewrite <- Hrest.
      apply find_marker_split in F1, F2. rewrite F1, F2.
      rewrite !append_assoc. reflexivity.
    + constructor; [|exact Hall].
      exists body. split; [reflexivity|].
      apply (find_marker_first END after_begin body rest); [discriminate | exact F2].
Qed.

(** X12: what the blocks of a text are.  The blocks that [match_blocks]
    finds are disjoint pieces of the text, in the order in which they
    occur in it; each one is the BEGIN marker, a body and the END marker,
    and the body contains no END marker (a block ends at the first one). *)
Theorem match_blocks_pieces (s : string) :
  exists gaps tail,
    length gaps = length (match_blocks s) /\
    s = interleave gaps (match_blocks s) tail /\
    Forall (fun b => exists body, b = block body /\ find_marker END body = None)
      (match_blocks s).
Proof. exact (blocks_fuel_pieces (String.length s) s). Qed.

Lemma find_marker_after_dash_free (m' pre rest : string) :
  dash_free pre = true ->
  find_marker (String "-"%char m') (pre +:+ String "-"%char m' +:+ rest) = Some (pre, rest).
Proof.
  intros Hpre. induction pre as [|c pre IH].
  - change (EmptyString +:+ String "-"%char m' +:+ rest) with (String "-"%char m' +:+ rest).
    rewrite find_marker_unfold, prefix_self_append.
    f_equal. f_equal.
    apply (append_cancel_l (String "-"%char m')).
    symmetry. apply prefix_split. apply prefix_self_append.
  - simpl in Hpre. apply andb_prop in Hpre as [Hc Hpre].
    change (String c pre +:+ String "-"%char m' +:+ rest)
      with (String c (pre +:+ String "-"%char m' +:+ rest)).
    rewrite find_marker_unfold.
    assert (E : String.prefix (String "-"%char m') (String c (pre +:+ String "-"%char m' +:+ rest))
                = false).
    { apply prefix_mismatch, not_dash, Hc. }
    rewrite E, (IH Hpre). reflexivity.
Qed.

Lemma find_marker_dash_free (m' s : string) :
  dash_free s = true -> find_marker (String "-"%char m') s = None.
Proof.
  intros Hs. induction s as [|c s IH]; [reflexivity|].
  simpl in Hs. apply andb_prop in Hs as [Hc Hs].
  rewrite find_marker_unfold.
  assert (E : String.prefix (String "-"%char m') (String c s) = false).
  { apply prefix_mismatch, not_dash, Hc. }
  rewrite E, (IH Hs). reflexivity.
Qed.

(** X13: a chain file is split back into its certificates.  For a chain
    made of PEM blocks whose bodies, like the text between and after the
    blocks, contain no '-' (Base64 and white space), [match_blocks] returns
    exactly the blocks, in order. *)
Theorem match_blocks_chain_of (items : list (string * string)) (tail : string) :
  Forall (fun it => dash_free (fst it) = true /\ dash_free (snd it) = true) items ->
  dash_free tail = true ->
  match_blocks (chain_of items tail) = List.map (fun it => block (snd it)) items.
Proof.
  intros Hitems Htail. induction Hitems as [|[gap body] items [Hgap Hbody] _ IH].
  - simpl. unfold match_blocks.
    destruct (String.length tail); [reflexivity|]. simpl.
    change BEGIN with (String "-"%char "----BEGIN CERTIFICATE-----").
    rewrite (find_marker_dash_free _ tail Htail). reflexivity.
  - simpl in Hgap, Hbody.
    rewrite <- (match_blocks_fuel_enough (S (String.length (chain_of ((gap, body) :: items) tail))))
      by lia.
    cbn [chain_of match_blocks_fuel].
    assert (F1 : find_marker BEGIN
                   (gap +:+ BEGIN +:+ body +:+ END +:+ chain_of items tail)
                 = Some (gap, body +:+ END +:+ chain_of items tail)).
    { change BEGIN with (String "-"%char "----BEGIN CERTIFICATE-----").
      apply find_marker_after_dash_free. exact Hgap. }
    assert (F2 : find_marker END (body +:+ END +:+ chain_of items tail)
                 = Some (body, chain_of items tail)).
    { change END with (String "-"%char "----END CERTIFICATE-----").
      apply find_marker_after_dash_free. exact Hbody. }
    rewrite F1, F2. cbn [List.map snd]. f_equal.
    rewrite <- IH. apply match_blocks_fuel_enough.
    apply find_marker_length in F1, F2. lia.
Qed.

Lemma match_blocks_chain_of_witness :
  match_blocks (chain_of [("", "MIIBIjANBgkq"); ("
", "MIIC8DCCAdig")] "
") = [block "MIIBIjANBgkq"; block "MIIC8DCCAdig"].
Proof.
  apply (match_blocks_chain_of [("", "MIIBIjANBgkq"); ("
", "MIIC8DCCAdig")] "
").
  - repeat constructor.
  - reflexivity.
Defined.

End PemBehaviour.

(** ** DELETE /api/ca/[id] *)

Section CaDeleteBehaviour.

Import CaRoute CaRouteTerms.

Lemma set_store_same (w : World) : set_store w (store w) = w.
Proof. destruct w. reflexivity. Qed.

(** Every run of the handler is one of the seven of [DeleteRun]. *)
Lemma DELETE_run (env : Env) (id : string) (w : World) :
  DeleteRun env id w (DELETE env id w).
Proof.
  unfold DELETE, DELETE_try, delete_cascade, cAConfig_delete, transaction,
    AuditService_log, try_catch, bind, await, ret, throw, write, query.
  destruct (getServerSession env) as [[session|]|m] eqn:Hs; cbn [fst snd].
  - destruct (not_admin session) eqn:Hadmin; cbn [fst snd].
    { apply (run_not_admin env id w session Hs Hadmin). }
    destruct (String.eqb_spec id "") as [Hid|Hid]; cbn [fst snd].
    { apply (run_no_id env id w session Hs Hadmin Hid). }
    cbn [store set_store certificate_deleteMany certificateRevocation_deleteMany
           cRL_deleteMany caConfigs].
    destruct (caConfigs (store w) !! id) as [ca|] eqn:Hca; cbn [fst snd store set_store].
    + destruct (audit_fails env (deleted_entry session id)) as [m|] eqn:Haudit;
        cbn [fst snd store set_store serviceCalls serials].
      * apply (run_audit_throws env id w session ca m Hs Hadmin Hid Hca Haudit).
      * apply (run_deleted env id w session ca Hs Hadmin Hid Hca Haudit).
    + match goal with
      | |- DeleteRun _ _ _ (_, ?w') => replace w' with w by (destruct w; reflexivity)
      end.
      apply (run_no_row env id w session Hs Hadmin Hid Hca).
  - apply (run_no_session env id w Hs).
  - apply (run_session_throws env id w m Hs).
Qed.

(** Case analysis of a run, with the answer and the world named. *)
Ltac delete_cases env id w :=
  let H := fresh "Hrun" in
  pose proof (DELETE_run env id w) as H;
  destruct (DELETE env id w) as [response w'];
  inversion H; subst; clear H; cbn [fst snd status payload json] in *.

(** X14: the answers of DELETE.  It answers 401 exactly when there is no
    session or the session's role is not ADMIN, 400 exactly when an
    administrator gives an empty id, and 200 exactly when an administrator
    names an existing CA and the audit row could be written; after a 401
    or a 400 the world is as it was. *)
Theorem DELETE_answers (env : Env) (id : string) (w : World) :
  (status (fst (DELETE env id w)) = 401 <->
   getServerSession env = Returned None \/
   exists s, getServerSession env = Returned (Some s) /\ not_admin s = true) /\
  (status (fst (DELETE env id w)) = 400 <->
   exists s, getServerSession env = Returned (Some s) /\ not_admin s = false /\
             id = "") /\
  (status (fst (DELETE env id w)) = 200 <->
   exists s, getServerSession env = Returned (Some s) /\ not_admin s = false /\
             id <> "" /\ is_Some (caConfigs (store w) !! id) /\
             audit_fails env (deleted_entry s id) = None) /\
  (status (fst (DELETE env id w)) = 401 \/ status (fst (DELETE env id w)) = 400 ->
   snd (DELETE env id w) = w).
Proof.
  delete_cases env id w; repeat split; intros; try discriminate; eauto 10;
    try match goal with
        | H : _ \/ _ |- _ => destruct H; try discriminate
        end;
    repeat match goal with
           | H : ex _ |- _ => destruct H
           | H : _ /\ _ |- _ => destruct H
           | H : is_Some _ |- _ => destruct H
           end;
    try congruence.
Qed.

(** X15: what a successful deletion leaves.  After an answer of 200 the
    CA row is gone, no certificate and no CRL of that CA is left, no
    revocation row that belonged to one of its certificates is left, and
    one CA_DELETED row was appended to the AuditLog table. *)
Theorem DELETE_removes_ca (env : Env) (id : string) (w : World) :
  status (fst (DELETE env id w)) = 200 ->
  caConfigs (store (snd (DELETE env id w))) !! id = None /\
  (forall k c, certificates (store (snd (DELETE env id w))) !! k = Some c ->
               cert_caId c <> id) /\
  Forall (fun c => crl_caId c <> id) (crls (store (snd (DELETE env id w)))) /\
  Forall (fun r => forall c, certificates (store w) !! rev_certificateId r = Some c ->
                             cert_caId c <> id)
    (certificateRevocations (store (snd (DELETE env id w)))) /\
  exists session,
    getServerSession env = Returned (Some session) /\
    auditLogs (store (snd (DELETE env id w))) =
      auditLogs (store w) ++ [deleted_entry session id].
Proof.
  delete_cases env id w; intros Hst; try discriminate.
  cbn [store set_store set_auditLogs cascade caConfigs certificates crls
         certificateRevocations auditLogs].
  split; [apply lookup_delete_eq|]. split.
  { intros k c Hk. apply map_lookup_filter_Some in Hk as [_ Hk]. exact Hk. }
  split.
  { apply Forall_forall. intros c Hc.
    apply list_elem_of_In, filter_In in Hc as [_ Hc].
    apply negb_true_iff in Hc. apply String.eqb_neq in Hc. exact Hc. }
  split.
  { apply Forall_forall. intros r Hr c Hc.
    apply list_elem_of_In, filter_In in Hr as [_ Hr].
    apply negb_true_iff in Hr. unfold revocation_of_ca in Hr. rewrite Hc in Hr.
    apply String.eqb_neq in Hr. exact Hr. }
  eauto.
Qed.

Lemma DELETE_removes_ca_witness :
  let r := DELETE (Examples.delete_env Examples.administrator) "ca-1" Examples.testWorld in
  caConfigs (store (snd r)) !! "ca-1" = None /\
  (forall k c, certificates (store (snd r)) !! k = Some c -> cert_caId c <> "ca-1") /\
  Forall (fun c => crl_caId c <> "ca-1") (crls (store (snd r))) /\
  Forall (fun r0 => forall c,
            certificates (store Examples.testWorld) !! rev_certificateId r0 = Some c ->
            cert_caId c <> "ca-1")
    (certificateRevocations (store (snd r))) /\
  exists session,
    getServerSession (Examples.delete_env Examples.administrator) =
      Returned (Some session) /\
    auditLogs (store (snd r)) =
      auditLogs (store Examples.testWorld) ++ [deleted_entry session "ca-1"].
Proof.
  apply (DELETE_removes_ca (Examples.delete_env Examples.administrator) "ca-1"
           Examples.testWorld).
  vm_compute. reflexivity.
Defined.

(** X16: what a deletion leaves alone.  Whatever the answer, the
    certificates and CRLs of other CAs, the rows of other CAs, the
    revocations of certificates of other CAs and the AuditLog rows that
    were there are still there, and nothing outside the database changes. *)
Theorem DELETE_frame (env : Env) (id : string) (w : World) :
  (forall k c, certificates (store w) !! k = Some c -> cert_caId c <> id ->
               certificates (store (snd (DELETE env id w))) !! k = Some c) /\
  (forall k, k <> id ->
             caConfigs (store (snd (DELETE env id w))) !! k = caConfigs (store w) !! k) /\
  (forall c, c ∈ crls (store w) -> crl_caId c <> id ->
             c ∈ crls (store (snd (DELETE env id w)))) /\
  (forall r c, r ∈ certificateRevocations (store w) ->
               certificates (store w) !! rev_certificateId r = Some c ->
               cert_caId c <> id ->
               r ∈ certificateRevocations (store (snd (DELETE env id w)))) /\
  auditLogs (store w) `prefix_of` auditLogs (store (snd (DELETE env id w))) /\
  serviceCalls (snd (DELETE env id w)) = serviceCalls w /\
  serials (snd (DELETE env id w)) = serials w.
Proof.
  assert (Hcascade :
    (forall k c, certificates (store w) !! k = Some c -> cert_caId c <> id ->
                 certificates (cascade id (store w)) !! k = Some c) /\
    (forall k, k <> id ->
               caConfigs (cascade id (store w)) !! k = caConfigs (store w) !! k) /\
    (forall c, c ∈ crls (store w) -> crl_caId c <> id ->
               c ∈ crls (cascade id (store w))) /\
    (forall r c, r ∈ certificateRevocations (store w) ->
                 certificates (store w) !! rev_certificateId r = Some c ->
                 cert_caId c <> id ->
                 r ∈ certificateRevocations (cascade id (store w)))).
  { cbn [cascade caConfigs certificates crls certificateRevocations].
    split; [|split; [|split]].
    - intros k c Hk Hc. apply map_lookup_filter_Some. auto.
    - intros k Hk. apply lookup_delete_ne. congruence.
    - intros c Hin Hc. apply list_elem_of_In, filter_In. split.
      + apply list_elem_of_In. exact Hin.
      + apply negb_true_iff, String.eqb_neq. exact Hc.
    - intros r c Hin Hr Hc. apply list_elem_of_In, filter_In. split.
      + apply list_elem_of_In. exact Hin.
      + apply negb_true_iff. unfold revocation_of_ca. rewrite Hr.
        apply String.eqb_neq. exact Hc. }
  destruct Hcascade as (H1 & H2 & H3 & H4).
  delete_cases env id w;
    cbn [store set_store set_auditLogs caConfigs certificates crls
           certificateRevocations auditLogs serviceCalls serials];
    repeat split; auto; try reflexivity.
  apply prefix_app_r. reflexivity.
Qed.

(** X17: an unknown CA.  When an administrator names a CA that has no row,
    the answer is 500 and the transaction is rolled back: the world is
    exactly as it was, also where certificates or CRLs carry that id. *)
Theorem DELETE_unknown_ca_rolls_back (env : Env) (id : string) (w : World)
    (session : Session) :
  getServerSession env = Returned (Some session) ->
  not_admin session = false ->
  id <> "" ->
  caConfigs (store w) !! id = None ->
  DELETE env id w = (json (DeleteError "Failed to delete CA") 500, w).
Proof.
  intros Hs Hadmin Hid Hca.
  delete_cases env id w; try congruence.
Qed.

Lemma DELETE_unknown_ca_rolls_back_witness :
  certificates (store Examples.twoCaWorld) !! "cert-9" = Some Examples.leftoverCertificate /\
  DELETE (Examples.delete_env Examples.administrator) "ca-9" Examples.twoCaWorld =
    (json (DeleteError "Failed to delete CA") 500, Examples.twoCaWorld).
Proof.
  split; [vm_compute; reflexivity|].
  apply (DELETE_unknown_ca_rolls_back (Examples.delete_env Examples.administrator)
           "ca-9" Examples.twoCaWorld Examples.administrator).
  - reflexivity.
  - reflexivity.
  - discriminate.
  - vm_compute. reflexivity.
Defined.

(** X18: deleted, yet reported as failed.  When an administrator deletes
    an existing CA and writing the audit row throws, the answer is 500,
    but the transaction was committed before: the CA and its certificates
    are gone, and no AuditLog row records it. *)
Theorem DELETE_commits_before_audit (env : Env) (id : string) (w : World)
    (session : Session) (ca : CAConfig) (message : string) :
  getServerSession env = Returned (Some session) ->
  not_admin session = false ->
  id <> "" ->
  caConfigs (store w) !! id = Some ca ->
  audit_fails env (deleted_entry session id) = Some message ->
  fst (DELETE env id w) = json (DeleteError "Failed to delete CA") 500 /\
  caConfigs (store (snd (DELETE env id w))) !! id = None /\
  (forall k c, certificates (store (snd (DELETE env id w))) !! k = Some c ->
               cert_caId c <> id) /\
  auditLogs (store (snd (DELETE env id w))) = auditLogs (store w).
Proof.
  intros Hs Hadmin Hid Hca Haudit.
  delete_cases env id w; try congruence.
  cbn [store set_store cascade caConfigs certificates auditLogs].
  split; [reflexivity|]. split; [apply lookup_delete_eq|]. split; [|reflexivity].
  intros k c Hk. apply map_lookup_filter_Some in Hk as [_ Hk]. exact Hk.
Qed.

Lemma DELETE_commits_before_audit_witness :
  let r := DELETE (Examples.delete_env_audit_down Examples.administrator) "ca-1"
             Examples.twoCaWorld in
  fst r = json (DeleteError "Failed to delete CA") 500 /\
  caConfigs (store (snd r)) !! "ca-1" = None /\
  (forall k c, certificates (store (snd r)) !! k = Some c -> cert_caId c <> "ca-1") /\
  auditLogs (store (snd r)) = auditLogs (store Examples.twoCaWorld).
Proof.
  apply (DELETE_commits_before_audit
           (Examples.delete_env_audit_down Examples.administrator) "ca-1"
           Examples.twoCaWorld Examples.administrator Examples.testCA
           "audit store unavailable").
  - reflexivity.
  - reflexivity.
  - discriminate.
  - vm_compute. reflexivity.
  - reflexivity.
Defined.

(** X19: revocations keep their certificates.  If every revocation row
    refers to a certificate row before a deletion, every revocation row
    does so after it, whatever the answer. *)
Theorem DELETE_keeps_revocations_resolved (env : Env) (id : string) (w : World) :
  revocations_resolve (store w) ->
  revocations_resolve (store (snd (DELETE env id w))).
Proof.
  intros Hres.
  assert (Hcascade : revocations_resolve (cascade id (store w))).
  { unfold revocations_resolve in *.
    cbn [cascade certificates certificateRevocations].
    rewrite Forall_forall in Hres. apply Forall_forall. intros r Hr.
    apply list_elem_of_In, filter_In in Hr as [Hin Hkeep].
    apply list_elem_of_In in Hin. destruct (Hres r Hin) as [c Hc].
    exists c. apply map_lookup_filter_Some. split; [exact Hc|]. simpl.
    apply negb_true_iff in Hkeep. unfold revocation_of_ca in Hkeep.
    rewrite Hc in Hkeep. apply String.eqb_neq. exact Hkeep. }
  delete_cases env id w; cbn [store set_store]; auto.
Qed.

Lemma DELETE_keeps_revocations_resolved_witness :
  revocations_resolve
    (store (snd (DELETE (Examples.delete_env Examples.administrator) "ca-1"
                   Examples.twoCaWorld))).
Proof.
  apply (DELETE_keeps_revocations_resolved
           (Examples.delete_env Examples.administrator) "ca-1" Examples.twoCaWorld).
  repeat constructor. vm_compute. eauto.
Defined.

(** X20: deleting twice.  After a deletion that answered 200, the same
    request again is answered 500 and changes nothing. *)
Theorem DELETE_twice (env : Env) (id : string) (w : World) :
  status (fst (DELETE env id w)) = 200 ->
  DELETE env id (snd (DELETE env id w)) =
    (json (DeleteError "Failed to delete CA") 500, snd (DELETE env id w)).
Proof.
  intros Hst.
  delete_cases env id w; try discriminate.
  match goal with
  | |- DELETE env id ?w1 = _ =>
      assert (Hgone : caConfigs (store w1) !! id = None)
        by (cbn [store set_store set_auditLogs cascade caConfigs];
            apply lookup_delete_eq);
      generalize dependent w1
  end.
  intros w1 Hgone.
  delete_cases env id w1; try congruence.
Qed.

Lemma DELETE_twice_witness :
  let w1 := snd (DELETE (Examples.delete_env Examples.administrator) "ca-1"
                   Examples.twoCaWorld) in
  DELETE (Examples.delete_env Examples.administrator) "ca-1" w1 =
    (json (DeleteError "Failed to delete CA") 500, w1).
Proof.
  apply (DELETE_twice (Examples.delete_env Examples.administrator) "ca-1"
           Examples.twoCaWorld).
  vm_compute. reflexivity.
Defined.

End CaDeleteBehaviour.

(** ** The admin settings page *)

Section AdminSettingsBehaviour.

Import AdminSettings.

Lemma get_prop_throws (k : string) (j : JSON) :
  (exists m, get_prop k j = Thrown m) <-> j = JNull.
Proof.
  destruct j; simpl; split; try discriminate; eauto;
    intros [m Hm]; discriminate.
Qed.

(** X21: one press of the maintenance button.  Whatever [fetch] does,
    the button is enabled again afterwards, one body was posted, which
    asks for the opposite of the mode shown and carries the message, and
    one toast was shown.  The mode shown flips exactly when the fetch
    resolved, the response was ok and its body was read; the toast is a
    success toast exactly when, besides, that body is not [null]. *)
Theorem toggleMaintenanceMode_outcome (response : Outcome FetchResponse) (st : State) :
  loading (toggleMaintenanceMode response st) = false /\
  posted (toggleMaintenanceMode response st) = posted st ++ [toggle_body st] /\
  maintenanceMode (toggleMaintenanceMode response st) =
    (if accepted response
     then JBool (negb (js_truthy (Some (maintenanceMode st))))
     else maintenanceMode st) /\
  maintenanceMessage (toggleMaintenanceMode response st) = maintenanceMessage st /\
  systemConfig (toggleMaintenanceMode response st) = systemConfig st /\
  exists t,
    toasts (toggleMaintenanceMode response st) = toasts st ++ [t] /\
    (t = error_toast "Failed to update maintenance mode" \/
     exists message, t = success_toast message) /\
    ((exists message, t = success_toast message) <->
     exists r result,
       response = Returned r /\ ok r = true /\
       json_body r = Returned result /\ result <> JNull).
Proof.
  unfold toggleMaintenanceMode, accepted.
  destruct response as [r|m]; [destruct (ok r) eqn:Hok; [destruct (json_body r) as [result|m] eqn:Hbody|]|];
    cbn [andb];
    try (repeat split; eexists; split; [reflexivity|]; split; [left; reflexivity|];
         split; [intros [m' Hm']; discriminate | intros (r' & res & H & Hok' & Hb' & _); congruence]).
  destruct (get_prop "message" result) as [message|m] eqn:Hmsg.
  - repeat split. eexists. split; [reflexivity|]. split; [right; eauto|].
    split; [|eauto]. intros _. exists r, result. repeat split; auto.
    intros ->. discriminate.
  - repeat split. eexists. split; [reflexivity|]. split; [left; reflexivity|].
    split; [intros [m' Hm']; discriminate|].
    intros (r' & res & [= <-] & _ & Hb' & Hnull). exfalso. apply Hnull.
    apply (get_prop_throws "message"). rewrite Hbody in Hb'. injection Hb' as <-. eauto.
Qed.

(** X22: a backup request.  Whatever [fetch] does, the button is enabled
    again afterwards, the one body posted asks for a backup, one toast was
    shown, and the mode, the message and the configuration shown are as
    they were. *)
Theorem createBackup_outcome (response : Outcome FetchResponse) (st : State) :
  loading (createBackup response st) = false /\
  posted (createBackup response st) = posted st ++ [backup_body] /\
  maintenanceMode (createBackup response st) = maintenanceMode st /\
  maintenanceMessage (createBackup response st) = maintenanceMessage st /\
  systemConfig (createBackup response st) = systemConfig st /\
  exists t,
    toasts (createBackup response st) = toasts st ++ [t] /\
    (t = error_toast "Failed to create backup" \/ exists message, t = success_toast message).
Proof.
  unfold createBackup.
  destruct response as [r|m]; [destruct (ok r); [destruct (json_body r) as [result|m];
    [destruct (get_prop "message" result) as [message|m]|]|]|];
    repeat split; eexists; (split; [reflexivity|]); eauto.
Qed.

(** X23: loading the configuration.  A response that is not ok is passed
    over in silence: the state, toasts included, is as it was.  From an ok
    response with an object for a body, the configuration shown is that
    object, the mode shown is on exactly when its [maintenanceMode] is
    truthy, the message is its [maintenanceMessage] or the empty string,
    and no toast is shown.  In no case is a body posted or the loading flag
    touched. *)
Theorem fetchSystemConfig_outcome (response : Outcome FetchResponse) (st : State) :
  (forall r, response = Returned r -> ok r = false ->
             fetchSystemConfig response st = st) /\
  (forall r props,
      response = Returned r -> ok r = true -> json_body r = Returned (JObj props) ->
      systemConfig (fetchSystemConfig response st) = JObj props /\
      js_truthy (Some (maintenanceMode (fetchSystemConfig response st))) =
        js_truthy (lookup_prop "maintenanceMode" props) /\
      maintenanceMessage (fetchSystemConfig response st) =
        js_or (lookup_prop "maintenanceMessage" props) (JStr "") /\
      toasts (fetchSystemConfig response st) = toasts st) /\
  posted (fetchSystemConfig response st) = posted st /\
  loading (fetchSystemConfig response st) = loading st.
Proof.
  split; [|split].
  - intros r -> Hok. unfold fetchSystemConfig. rewrite Hok. reflexivity.
  - intros r props -> Hok Hbody. unfold fetchSystemConfig. rewrite Hok, Hbody.
    cbn [get_prop systemConfig maintenanceMode maintenanceMessage toasts
           setSystemConfig setMaintenanceMode setMaintenanceMessage].
    repeat split.
    unfold js_or. destruct (lookup_prop "maintenanceMode" props) as [j|]; [|reflexivity].
    destruct (js_truthy (Some j)) eqn:E; [exact E | reflexivity].
  - unfold fetchSystemConfig.
    destruct response as [r|m]; [destruct (ok r); [destruct (json_body r) as [data|m];
      [destruct (get_prop "maintenanceMode" data);
       [destruct (get_prop "maintenanceMessage" data)|]|]|]|];
      split; reflexivity.
Qed.

(** X24: two presses.  Two presses of the maintenance button that are both
    accepted leave the page showing the mode it showed before, as on or
    off, and have posted two bodies that ask for opposite modes. *)
Theorem toggleMaintenanceMode_twice (r1 r2 : Outcome FetchResponse) (st : State) :
  accepted r1 = true ->
  accepted r2 = true ->
  js_truthy (Some (maintenanceMode
                     (toggleMaintenanceMode r2 (toggleMaintenanceMode r1 st)))) =
    js_truthy (Some (maintenanceMode st)) /\
  posted (toggleMaintenanceMode r2 (toggleMaintenanceMode r1 st)) =
    posted st ++
    [toggle_body st;
     JObj [("action", JStr "toggleMaintenance");
           ("config",
            JObj [("maintenanceMode", JBool (js_truthy (Some (maintenanceMode st))));
                  ("maintenanceMessage", maintenanceMessage st)])]].
Proof.
  unfold accepted. intros H1 H2.
  destruct r1 as [r1|]; [|discriminate]. destruct r2 as [r2|]; [|discriminate].
  apply andb_prop in H1 as [Hok1 Hb1]. apply andb_prop in H2 as [Hok2 Hb2].
  destruct (json_body r1) as [result1|] eqn:E1; [|discriminate].
  destruct (json_body r2) as [result2|] eqn:E2; [|discriminate].
  unfold toggleMaintenanceMode. rewrite Hok1, Hok2, E1, E2.
  destruct (get_prop "message" result1), (get_prop "message" result2);
    (split;
     [ cbn [maintenanceMode setLoading setMaintenanceMode show post];
       change (js_truthy (Some (JBool ?b))) with b;
       apply negb_involutive
     | cbn [posted maintenanceMode maintenanceMessage setLoading setMaintenanceMode
              show post];
       unfold toggle_body;
       cbn [maintenanceMode maintenanceMessage setLoading setMaintenanceMode show post];
       change (js_truthy (Some (JBool ?b))) with b;
       rewrite negb_involutive, <- app_assoc; reflexivity ]).
Qed.

Lemma toggleMaintenanceMode_twice_witness :
  let reply := Returned {| ok := true;
                           json_body := Returned (JObj [("message", JStr "updated")]) |} in
  js_truthy (Some (maintenanceMode
                     (toggleMaintenanceMode reply (toggleMaintenanceMode reply initial)))) =
    js_truthy (Some (maintenanceMode initial)) /\
  posted (toggleMaintenanceMode reply (toggleMaintenanceMode reply initial)) =
    posted initial ++
    [toggle_body initial;
     JObj [("action", JStr "toggleMaintenance");
           ("config",
            JObj [("maintenanceMode", JBool (js_truthy (Some (maintenanceMode initial))));
                  ("maintenanceMessage", maintenanceMessage initial)])]].
Proof.
  apply (toggleMaintenanceMode_twice
           (Returned {| ok := true;
                        json_body := Returned (JObj [("message", JStr "updated")]) |})
           (Returned {| ok := true;
                        json_body := Returned (JObj [("message", JStr "updated")]) |})
           initial).
  - reflexivity.
  - reflexivity.
Defined.

End AdminSettingsBehaviour.
